(** * gotag-validator (v2): a shallow embedding of [validator.go]

    The package wraps go-playground/validator: [NewValidator] registers five
    domain rules, [Validate] dispatches on the runtime kind of its argument
    and [validate] translates the engine's violations into a problem-details
    value.  The embedding follows the Go source function by function.  Go
    strings are byte strings and are modelled by [string]; a Go panic is an
    explicit outcome. *)

From Stdlib Require Import ZArith List String Ascii Bool Lia.
From Stdlib Require Import DecimalString.
Import ListNotations.

Open Scope string_scope.
Open Scope list_scope.

Set Implicit Arguments.
Set Warnings "-register-all".

(** ** Outcomes: a Go call either returns or panics *)

Inductive outcome (A : Type) : Type :=
| Ret (a : A)
| Panic (msg : string).

Arguments Ret {A} a.
Arguments Panic {A} msg.

Definition bind {A B : Type} (c : outcome A) (k : A -> outcome B) : outcome B :=
  match c with
  | Ret a => k a
  | Panic m => Panic m
  end.

Notation "x <- c ;; k" := (bind c (fun x => k))
  (at level 61, c at next level, right associativity).

Fixpoint mapM {A B : Type} (f : A -> outcome B) (l : list A) : outcome (list B) :=
  match l with
  | [] => Ret []
  | a :: rest => b <- f a ;; bs <- mapM f rest ;; Ret (b :: bs)
  end.

(** ** The [strings] package (the three functions the source calls) *)

Definition strings_HasPrefix (s prefix : string) : bool := String.prefix prefix s.

(** [strings.Split(s, sep)] for a one-byte separator, which is how every
    call site of the package uses it ("." , " " and ","). *)
Fixpoint strings_Split (s : string) (sep : ascii) : list string :=
  match s with
  | EmptyString => [EmptyString]
  | String c rest =>
      if Ascii.eqb c sep then EmptyString :: strings_Split rest sep
      else match strings_Split rest sep with
           | hd :: tl => String c hd :: tl
           | [] => [String c EmptyString]
           end
  end.

Fixpoint strings_Join (elems : list string) (sep : string) : string :=
  match elems with
  | [] => EmptyString
  | [a] => a
  | a :: rest => (a ++ sep ++ strings_Join rest sep)%string
  end.

(** ** The part of [reflect] the package relies on *)

Inductive Kind : Type :=
| KInvalid | KBool | KInt | KFloat64 | KString | KMap | KFunc
| KArray | KSlice | KStruct | KPtr | KInterface.

(** A struct tag in its conventional form, as the list of its
    [key:"value"] pairs; [Get] returns the value of the first pair with the
    key and the empty string when there is none. *)
Definition StructTag : Type := list (string * string).

Fixpoint StructTag_Get (tag : StructTag) (key : string) : string :=
  match tag with
  | [] => EmptyString
  | (k, v) :: rest => if String.eqb k key then v else StructTag_Get rest key
  end.

Record StructField : Type := mkStructField
  { sf_Name : string;
    sf_Tag : StructTag }.

(** The zero [reflect.StructField], what [Type.FieldByName] returns together
    with [false] when the struct has no such field. *)
Definition zeroStructField : StructField := mkStructField EmptyString [].

Inductive GoType : Type :=
| TBasic (k : Kind) (name : string)
| TStruct (name : string) (fields : list StructField)
| TPtr (elem : GoType)
| TSlice (elem : GoType)
| TArray (len : nat) (elem : GoType).

Definition Type_Kind (t : GoType) : Kind :=
  match t with
  | TBasic k _ => k
  | TStruct _ _ => KStruct
  | TPtr _ => KPtr
  | TSlice _ => KSlice
  | TArray _ _ => KArray
  end.

Fixpoint Type_String (t : GoType) : string :=
  match t with
  | TBasic _ name => name
  | TStruct name _ => name
  | TPtr e => ("*" ++ Type_String e)%string
  | TSlice e => ("[]" ++ Type_String e)%string
  | TArray n e =>
      ("[" ++ NilEmpty.string_of_uint (Nat.to_uint n) ++ "]" ++ Type_String e)%string
  end.

Fixpoint lookupField (fields : list StructField) (name : string) : option StructField :=
  match fields with
  | [] => None
  | f :: rest => if String.eqb (sf_Name f) name then Some f else lookupField rest name
  end.

(** [Type.Elem] and [Type.FieldByName] panic on types of the wrong kind.
    [FieldByName] searches the direct fields (struct types are taken without
    embedded fields, see [Value_FieldByName] below). *)
Definition Type_Elem (t : GoType) : outcome GoType :=
  match t with
  | TPtr e | TSlice e | TArray _ e => Ret e
  | _ => Panic "reflect: Elem of invalid type"
  end.

Definition Type_FieldByName (t : GoType) (name : string) : outcome (StructField * bool) :=
  match t with
  | TStruct _ fields =>
      match lookupField fields name with
      | Some f => Ret (f, true)
      | None => Ret (zeroStructField, false)
      end
  | _ => Panic "reflect: FieldByName of non-struct type"
  end.

(** Run-time values.  A struct value carries its fields with their
    descriptors, a pointer may be nil, a slice or an array carries its element
    type (so that empty ones are typed).  Values of the other, non-composite
    kinds are opaque to this package, only their type matters. *)
Inductive Value : Type :=
| VString (s : string)
| VBasic (k : Kind) (tyname : string)
| VStruct (tyname : string) (fields : list (StructField * Value))
| VPtr (elem : GoType) (target : option Value)
| VSlice (elem : GoType) (elems : list Value)
| VArray (elem : GoType) (elems : list Value).

(** The dynamic type of a value. *)
Definition typeOfValue (v : Value) : GoType :=
  match v with
  | VString _ => TBasic KString "string"
  | VBasic k n => TBasic k n
  | VStruct n fs => TStruct n (map fst fs)
  | VPtr e _ => TPtr e
  | VSlice e _ => TSlice e
  | VArray e xs => TArray (List.length xs) e
  end.

(** An [interface{}] argument: [None] is the nil interface. *)
Definition any : Type := option Value.

(** [reflect.TypeOf]: the nil interface has the nil [reflect.Type]. *)
Definition reflect_TypeOf (body : any) : option GoType := option_map typeOfValue body.

Definition nilDereference : string :=
  "runtime error: invalid memory address or nil pointer dereference".

(** Calling a method on the nil [reflect.Type] is a nil dereference. *)
Definition reflect_Type_Kind (t : option GoType) : outcome Kind :=
  match t with
  | Some ty => Ret (Type_Kind ty)
  | None => Panic nilDereference
  end.

Definition reflect_Type_Elem (t : option GoType) : outcome GoType :=
  match t with
  | Some ty => Type_Elem ty
  | None => Panic nilDereference
  end.

Definition reflect_Type_FieldByName (t : option GoType) (name : string)
  : outcome (StructField * bool) :=
  match t with
  | Some ty => Type_FieldByName ty name
  | None => Panic nilDereference
  end.

(** A [reflect.Value]: [None] is the zero (invalid) Value. *)
Definition rvalue : Type := option Value.

Definition Value_Kind (v : rvalue) : Kind :=
  match v with
  | None => KInvalid
  | Some x => Type_Kind (typeOfValue x)
  end.

Definition Value_String (v : rvalue) : string :=
  match v with
  | None => "<invalid Value>"
  | Some (VString s) => s
  | Some x => ("<" ++ Type_String (typeOfValue x) ++ " Value>")%string
  end.

Definition Value_Elem (v : rvalue) : outcome rvalue :=
  match v with
  | Some (VPtr _ target) => Ret target
  | _ => Panic "reflect: call of reflect.Value.Elem on non-pointer Value"
  end.

Fixpoint lookupFieldValue (fields : list (StructField * Value)) (name : string) : rvalue :=
  match fields with
  | [] => None
  | (f, v) :: rest =>
      if String.eqb (sf_Name f) name then Some v else lookupFieldValue rest name
  end.

(** [Value.FieldByName] returns the zero Value when the struct has no such
    field and panics when the receiver is not a struct.  The struct values of
    this development have direct, named fields only: a [StructField] carries
    no [Anonymous] flag, so no field is embedded, none is promoted, and the
    search is the one over the direct fields.  Go's search through embedded
    structs, and its panic when a promoted field lies behind a nil embedded
    pointer, are outside this fragment: where a property below speaks of a
    record, it is a record with direct fields only. *)
Definition Value_FieldByName (v : rvalue) (name : string) : outcome rvalue :=
  match v with
  | Some (VStruct _ fields) => Ret (lookupFieldValue fields name)
  | _ => Panic "reflect: call of reflect.Value.FieldByName on non-struct Value"
  end.

(** The elements of a slice, in index order ([Len] and [Index]). *)
Definition reflect_ValueOf (body : any) : rvalue := body.

Definition Value_elems (v : rvalue) : list Value :=
  match v with
  | Some (VSlice _ xs) | Some (VArray _ xs) => xs
  | _ => []
  end.

Definition Value_Len (v : rvalue) : nat := List.length (Value_elems v).

(** [Value.Interface]: the value as an [interface{}]. *)
Definition Value_Interface (v : Value) : any := Some v.

(** ** Problem details ([schneider.vip/problem]) *)

Record InvalidParam : Type := mkInvalidParam
  { Name : string;
    Reason : string }.

Inductive ProblemValue : Type :=
| PInt (z : Z)
| PString (s : string)
| PInvalidParams (l : list InvalidParam).

(** A problem is a map from keys to values; an option sets one key. *)
Definition Problem : Type := list (string * ProblemValue).

Definition ProblemOption : Type := (string * ProblemValue)%type.

Fixpoint problem_set (p : Problem) (o : ProblemOption) : Problem :=
  match p with
  | [] => [o]
  | (k, v) :: rest =>
      if String.eqb k (fst o) then o :: rest else (k, v) :: problem_set rest o
  end.

Fixpoint problem_get (p : Problem) (key : string) : option ProblemValue :=
  match p with
  | [] => None
  | (k, v) :: rest => if String.eqb k key then Some v else problem_get rest key
  end.

Definition problem_Status (status : Z) : ProblemOption := ("status", PInt status).
Definition problem_Title (title : string) : ProblemOption := ("title", PString title).
Definition problem_Custom (key : string) (v : ProblemValue) : ProblemOption := (key, v).

Definition problem_Append (p : Problem) (opts : list ProblemOption) : Problem :=
  fold_left problem_set opts p.

Definition problem_New (opts : list ProblemOption) : Problem := problem_Append [] opts.

Definition http_StatusBadRequest : Z := 400.

(** A Go [error] returned by [Validate]: the nil interface, or an interface
    holding a [*problem.Problem] (which may itself be the nil pointer). *)
Inductive error : Type :=
| error_nil
| error_Problem (p : option Problem).

(** ** Constants of the package *)

Definition customPrefix : string := "custom".

Definition datetimeGteTag : string := "strdatetimegte".
Definition documentTag : string := "document".
Definition decimal2placesTag : string := "decimal2places".
Definition brZipCodeTag : string := "brzipcode".
Definition iso8601dateTag : string := "iso8601date".

Definition mustBeGteMessage : string := " must be greater than or equal ".
Definition decimal2placesMessage : string := " must be in a decimal value format as %.2f".
Definition documentMessage : string := " must be a valid cpf or cnpj".
Definition zipCodeMessage : string := " must be a valid br zip code".
Definition isoMessage : string := " must be a YYYY-MM-DD format date".

Definition cannotBeEmptyArrayProblemJSON : Problem :=
  problem_New [problem_Status http_StatusBadRequest; problem_Title "Cannot be empty."].

(** ** The validation engine as the package sees it *)

(** One violation reported by the engine ([validator.FieldError]). *)
Record FieldError : Type := mkFieldError
  { Namespace : string;
    Field : string;
    Tag : string;
    Param : string }.

(** What the engine's [Struct] method returns: nil, the violations, or an
    [*InvalidValidationError] when its argument is not a struct. *)
Inductive StructResult : Type :=
| StructOk
| ValidationErrors (errs : list FieldError)
| InvalidValidationError.

(** The engine may panic (a rule predicate may, for one). *)
Record genericValidator : Type := mkGenericValidator
  { tagValidator : any -> outcome StructResult;
    trans : FieldError -> string;
    messageErrors : list (string * string) }.

(** ** [getJsonTagNameFromPropertyName] *)

Definition space : ascii := " "%char.
Definition comma : ascii := ","%char.
Definition dot : ascii := "."%char.

Definition firstOf (l : list string) : string := hd EmptyString l.

Definition jsonTagName (pointr : option GoType) (field : string) : outcome string :=
  kind <- reflect_Type_Kind pointr ;;
  otherFieldVal <-
    (match kind with
     | KPtr => e <- reflect_Type_Elem pointr ;; r <- Type_FieldByName e field ;; Ret (fst r)
     | _ => r <- reflect_Type_FieldByName pointr field ;; Ret (fst r)
     end) ;;
  let tag :=
    let tag := StructTag_Get (sf_Tag otherFieldVal) "json" in
    if String.eqb tag "" then
      let tag := StructTag_Get (sf_Tag otherFieldVal) "param" in
      if String.eqb tag "" then
        let tag := StructTag_Get (sf_Tag otherFieldVal) "query" in
        if String.eqb tag "" then field else tag
      else tag
    else tag in
  Ret (firstOf (strings_Split tag comma)).

Definition getJsonTagNameFromPropertyName (param : string) (body : any)
  : outcome (list string) :=
  let pointr := reflect_TypeOf body in
  mapM (jsonTagName pointr) (strings_Split param space).

(** ** [validate]: translation of the engine's violations *)

Fixpoint lookupMessage (m : list (string * string)) (tag : string) : string :=
  match m with
  | [] => EmptyString
  | (customTag, message) :: rest =>
      if String.eqb tag customTag then message else lookupMessage rest tag
  end.

Definition translateName (validationError : FieldError) : string :=
  let paths := strings_Split (Namespace validationError) dot in
  if (1 <? List.length paths)%nat then strings_Join (tl paths) "."
  else Namespace validationError.

Definition translateReason (gv : genericValidator) (body : any)
  (validationError : FieldError) : outcome string :=
  if strings_HasPrefix (Tag validationError) customPrefix then
    Ret (lookupMessage (messageErrors gv) (Tag validationError))
  else if String.eqb (Tag validationError) "required_without_all" then
    tags <- getJsonTagNameFromPropertyName (Param validationError) body ;;
    Ret ("at least one of these fields are required: " ++ Field validationError
           ++ ", " ++ strings_Join tags ", ")%string
  else if String.eqb (Tag validationError) "required_with" then
    tags <- getJsonTagNameFromPropertyName (Param validationError) body ;;
    Ret (Field validationError ++ " is required if one of these fields are filled: "
           ++ strings_Join tags ", ")%string
  else if String.eqb (Tag validationError) datetimeGteTag then
    tags <- getJsonTagNameFromPropertyName (Param validationError) body ;;
    Ret (Field validationError ++ mustBeGteMessage ++ firstOf tags)%string
  else if String.eqb (Tag validationError) documentTag then
    Ret (Field validationError ++ documentMessage)%string
  else if String.eqb (Tag validationError) decimal2placesTag then
    Ret (Field validationError ++ decimal2placesMessage)%string
  else if String.eqb (Tag validationError) brZipCodeTag then
    Ret (Field validationError ++ zipCodeMessage)%string
  else if String.eqb (Tag validationError) iso8601dateTag then
    Ret (Field validationError ++ isoMessage)%string
  else Ret (trans gv validationError).

Definition translate (gv : genericValidator) (body : any)
  (validationError : FieldError) : outcome InvalidParam :=
  reason <- translateReason gv body validationError ;;
  Ret (mkInvalidParam (translateName validationError) reason).

Definition validate (gv : genericValidator) (body : any) : outcome (option Problem) :=
  err <- tagValidator gv body ;;
  match err with
  | StructOk => Ret None
  | InvalidValidationError =>
      Panic "interface conversion: error is *validator.InvalidValidationError, not validator.ValidationErrors"
  | ValidationErrors validationErrors =>
      if (0 <? List.length validationErrors)%nat then
        invalidParams <- mapM (translate gv body) validationErrors ;;
        Ret (Some (problem_Append (problem_New [problem_Status http_StatusBadRequest])
                     [problem_Custom "invalid_params" (PInvalidParams invalidParams)]))
      else Ret None
  end.

(** ** [Validate]: dispatch on the kind of the argument *)

(** The loop over a slice: the first non-nil problem is returned, and
    falling out of the loop (and of the switch) returns nil.  In the struct
    case the [*problem.Problem] of [validate] is returned as it is, so the
    error value holds the pointer even when it is nil. *)
Fixpoint validateElements (gv : genericValidator) (elems : list Value) : outcome error :=
  match elems with
  | [] => Ret error_nil
  | x :: rest =>
      problemJSON <- validate gv (Value_Interface x) ;;
      match problemJSON with
      | Some p => Ret (error_Problem (Some p))
      | None => validateElements gv rest
      end
  end.

Definition Validate (gv : genericValidator) (body : any) : outcome error :=
  kind <- reflect_Type_Kind (reflect_TypeOf body) ;;
  match kind with
  | KSlice =>
      let slice := reflect_ValueOf body in
      if (Value_Len slice =? 0)%nat then
        Ret (error_Problem (Some cannotBeEmptyArrayProblemJSON))
      else validateElements gv (Value_elems slice)
  | KStruct | KInterface | KPtr =>
      p <- validate gv body ;; Ret (error_Problem p)
  | _ => Ret error_nil
  end.

(** ** Regular expressions ([regexp]) *)

(** The syntax the two patterns of the package need: character classes,
    concatenation, alternation and iteration.  [?] and [{n}] are derived. *)
Inductive regex : Type :=
| RNone
| REps
| RClass (p : ascii -> bool)
| RCat (r1 r2 : regex)
| RAlt (r1 r2 : regex)
| RStar (r : regex).

Definition ROpt (r : regex) : regex := RAlt r REps.

Fixpoint RRepeat (n : nat) (r : regex) : regex :=
  match n with
  | O => REps
  | S m => RCat r (RRepeat m r)
  end.

Definition RAny : regex := RClass (fun _ => true).
Definition RChar (c : ascii) : regex := RClass (Ascii.eqb c).

(** [\d] is the ASCII class [0-9]. *)
Definition isDigit (c : ascii) : bool :=
  ((48 <=? nat_of_ascii c) && (nat_of_ascii c <=? 57))%nat.

Definition RDigit : regex := RClass isDigit.

Fixpoint nullable (r : regex) : bool :=
  match r with
  | RNone => false
  | REps => true
  | RClass _ => false
  | RCat r1 r2 => nullable r1 && nullable r2
  | RAlt r1 r2 => nullable r1 || nullable r2
  | RStar _ => true
  end.

(** The derivative of [r] by the byte [c]. *)
Fixpoint deriv (c : ascii) (r : regex) : regex :=
  match r with
  | RNone => RNone
  | REps => RNone
  | RClass p => if p c then REps else RNone
  | RCat r1 r2 =>
      if nullable r1 then RAlt (RCat (deriv c r1) r2) (deriv c r2)
      else RCat (deriv c r1) r2
  | RAlt r1 r2 => RAlt (deriv c r1) (deriv c r2)
  | RStar r1 => RCat (deriv c r1) (RStar r1)
  end.

Fixpoint fullMatch (r : regex) (s : string) : bool :=
  match s with
  | EmptyString => nullable r
  | String c rest => fullMatch (deriv c r) rest
  end.

(** A compiled pattern: its body and whether it starts with [^] and ends
    with [$].  Without the multi-line flag these are the start and the end of
    the text. *)
Record Regexp : Type := mkRegexp
  { beginText : bool;
    body : regex;
    endText : bool }.

(** [MatchString] reports whether the text contains a match: an unanchored
    side may be preceded (followed) by any bytes. *)
Definition MatchString (re : Regexp) (s : string) : bool :=
  fullMatch
    (RCat (if beginText re then REps else RStar RAny)
       (RCat (body re) (if endText re then REps else RStar RAny))) s.

(** [regexForValidDecimalValues = "^(\\d*\\.)?\\d{2}$"] *)
Definition decimalValuesRegex : Regexp :=
  mkRegexp true
    (RCat (ROpt (RCat (RStar RDigit) (RChar "."))) (RRepeat 2 RDigit))
    true.

(** [regexForValidBrZipCode = "^\\d{5}\\-{0,1}\\d{3}$"] *)
Definition regexBrZipCode : Regexp :=
  mkRegexp true
    (RCat (RRepeat 5 RDigit) (RCat (ROpt (RChar "-")) (RRepeat 3 RDigit)))
    true.

(** ** Rule predicates ([validator.FieldLevel]) *)

Record FieldLevel : Type := mkFieldLevel
  { fl_Field : rvalue;
    fl_Param : string;
    fl_Parent : rvalue }.

Definition validDecimalValue (fl : FieldLevel) : bool :=
  MatchString decimalValuesRegex (Value_String (fl_Field fl)).

Definition validateBrZipCode (fl : FieldLevel) : bool :=
  MatchString regexBrZipCode (Value_String (fl_Field fl)).

(** ** Times ([time.Time]) *)

Inductive Location : Type :=
| UTC
| FixedZone (offset : Z).

(** An instant (seconds since the Unix epoch and nanoseconds within the
    second) with the location it is presented in. *)
Record Time : Type := mkTime
  { unixSec : Z;
    nsec : Z;
    loc : Location }.

Definition Time_UTC (t : Time) : Time := mkTime (unixSec t) (nsec t) UTC.

Definition Time_Before (t u : Time) : bool :=
  (unixSec t <? unixSec u)%Z || ((unixSec t =? unixSec u)%Z && (nsec t <? nsec u)%Z).

Record UTCTime : Type := mkUTCTime { utc_Time : Time }.

Inductive result (A : Type) : Type :=
| Ok (a : A)
| Err (msg : string).

Arguments Ok {A} a.
Arguments Err {A} msg.

Definition defaultFormat : string := "2006-01-02T15:04:05Z07:00".
Definition MilisecondsFormat : string := "2006-01-02T15:04:05.000Z".
Definition DateTimeZeroFormat : string := "2006-01-02T15:04:05Z".

Definition layouts : list string :=
  [ defaultFormat;
    "2006-01-02T15:04Z";
    DateTimeZeroFormat;
    MilisecondsFormat;
    "2006-01-02T15:04:05";
    "2006-01-02 15:04";
    "2006-01-02 15:04:05";
    "2006-01-02 15:04:05.000";
    "2006-01-02" ].

Definition Kind_eqb (a b : Kind) : bool :=
  match a, b with
  | KInvalid, KInvalid | KBool, KBool | KInt, KInt | KFloat64, KFloat64
  | KString, KString | KMap, KMap | KFunc, KFunc | KArray, KArray
  | KSlice, KSlice | KStruct, KStruct | KPtr, KPtr | KInterface, KInterface => true
  | _, _ => false
  end.

Section DateRules.

(** [time.Parse(layout, value)] of the standard library; [None] is a parse
    error. *)
Variable time_Parse : string -> string -> option Time.

Fixpoint parseWith (ls : list string) (timeString : string) : result UTCTime :=
  match ls with
  | [] => Err ("invalid date format: " ++ timeString)
  | layout :: rest =>
      match time_Parse layout timeString with
      | Some parsed => Ok (mkUTCTime (Time_UTC parsed))
      | None => parseWith rest timeString
      end
  end.

Definition parseToUTCTime (timeString : string) : result UTCTime :=
  parseWith layouts timeString.

Definition validateDatetimeGTE (fl : FieldLevel) : outcome bool :=
  let fieldValue := Value_String (fl_Field fl) in
  let otherFieldName := fl_Param fl in
  otherFieldVal <-
    (if Kind_eqb (Value_Kind (fl_Parent fl)) KPtr then
       e <- Value_Elem (fl_Parent fl) ;; Value_FieldByName e otherFieldName
     else Value_FieldByName (fl_Parent fl) otherFieldName) ;;
  match parseToUTCTime fieldValue with
  | Err _ => Ret false
  | Ok referenceField =>
      match parseToUTCTime (Value_String otherFieldVal) with
      | Err _ => Ret false
      | Ok compareField =>
          if Time_Before (utc_Time referenceField) (utc_Time compareField)
          then Ret false
          else Ret true
      end
  end.

Definition validateISO8601Date (fl : FieldLevel) : bool :=
  match time_Parse "2006-01-02" (Value_String (fl_Field fl)) with
  | Some _ => true
  | None => false
  end.

End DateRules.

(** ** A model of [time.Parse] of the Go standard library

    The standard library is not part of the package.  The model follows its
    [format.go] (Go 1.17 and later) for the layout elements that occur in
    [layouts]: ["2006"], ["01"], ["02"], ["15"], ["04"], ["05"], [".000"],
    ["Z07:00"] and literal bytes.  The other elements are recognised as
    [stdOther], on which the model reports a parse error. *)
Module GoTime.

Inductive std : Type :=
| stdNone
| stdLongYear | stdZeroMonth | stdZeroDay | stdHour
| stdZeroMinute | stdZeroSecond
| stdFracSecond0 (digits : nat)
| stdISO8601ColonTZ
| stdOther.

Fixpoint dropBytes (n : nat) (s : string) {struct s} : string :=
  match s with
  | EmptyString => EmptyString
  | String _ rest =>
      match n with
      | O => s
      | S m => dropBytes m rest
      end
  end.

Definition startsWith (s p : string) : bool := String.prefix p s.

Definition byteIs (c d : ascii) : bool := Ascii.eqb c d.

(** The run of bytes equal to [ch] at the head of [s]. *)
Fixpoint runLength (ch : ascii) (s : string) : nat :=
  match s with
  | String c rest => if byteIs c ch then S (runLength ch rest) else O
  | EmptyString => O
  end.

(** The number of digits at the head of [s]. *)
Fixpoint runDigits (s : string) : nat :=
  match s with
  | String c rest => if isDigit c then S (runDigits rest) else O
  | EmptyString => O
  end.

Definition isDigitAt (s : string) (i : nat) : bool :=
  match String.get i s with
  | Some c => isDigit c
  | None => false
  end.

(** The element that starts at the head of the layout, with the number of
    bytes it spans; [None] when the head is a literal byte. *)
Definition stdAt (layout : string) : option (std * nat) :=
  match layout with
  | EmptyString => None
  | String c rest =>
      if byteIs c "0" then
        if startsWith layout "01" then Some (stdZeroMonth, 2%nat)
        else if startsWith layout "02" then Some (stdZeroDay, 2%nat)
        else if startsWith layout "04" then Some (stdZeroMinute, 2%nat)
        else if startsWith layout "05" then Some (stdZeroSecond, 2%nat)
        else if startsWith layout "03" || startsWith layout "06" then Some (stdOther, 2%nat)
        else if startsWith layout "002" then Some (stdOther, 3%nat)
        else None
      else if byteIs c "1" then
        if startsWith layout "15" then Some (stdHour, 2%nat) else Some (stdOther, 1%nat)
      else if byteIs c "2" then
        if startsWith layout "2006" then Some (stdLongYear, 4%nat) else Some (stdOther, 1%nat)
      else if byteIs c "-" then
        if startsWith layout "-070000" then Some (stdOther, 7%nat)
        else if startsWith layout "-07:00:00" then Some (stdOther, 9%nat)
        else if startsWith layout "-0700" then Some (stdOther, 5%nat)
        else if startsWith layout "-07:00" then Some (stdOther, 6%nat)
        else if startsWith layout "-07" then Some (stdOther, 3%nat)
        else None
      else if byteIs c "Z" then
        if startsWith layout "Z070000" then Some (stdOther, 7%nat)
        else if startsWith layout "Z07:00:00" then Some (stdOther, 9%nat)
        else if startsWith layout "Z0700" then Some (stdOther, 5%nat)
        else if startsWith layout "Z07:00" then Some (stdISO8601ColonTZ, 6%nat)
        else if startsWith layout "Z07" then Some (stdOther, 3%nat)
        else None
      else if byteIs c "." || byteIs c "," then
        match rest with
        | String ch _ =>
            if byteIs ch "0" || byteIs ch "9" then
              let n := runLength ch rest in
              if isDigitAt rest n then None
              else if byteIs ch "0" && byteIs c "." then Some (stdFracSecond0 n, S n)
              else Some (stdOther, S n)
            else None
        | EmptyString => None
        end
      else if byteIs c "J" || byteIs c "M" || byteIs c "_" || byteIs c "3"
              || byteIs c "4" || byteIs c "5" || byteIs c "P" || byteIs c "p"
      then Some (stdOther, 1%nat)
      else None
  end.

(** [nextStdChunk]: the literal prefix, the first element and the rest. *)
Fixpoint nextStdChunk (layout : string) : string * std * string :=
  match layout with
  | EmptyString => (EmptyString, stdNone, EmptyString)
  | String c rest =>
      match stdAt layout with
      | Some (s, n) => (EmptyString, s, dropBytes n layout)
      | None =>
          match nextStdChunk rest with
          | (prefix, s, suffix) => (String c prefix, s, suffix)
          end
      end
  end.

Fixpoint cutspace (s : string) : string :=
  match s with
  | String c rest => if byteIs c " " then cutspace rest else s
  | EmptyString => s
  end.

(** [skip]: remove the literal prefix from the value; a space of the
    prefix stands for any run of spaces ([afterSpace] records that the
    spaces of both sides have just been cut). *)
Fixpoint skipFrom (afterSpace : bool) (value prefix : string) : option string :=
  match prefix with
  | EmptyString => Some value
  | String p prest =>
      if byteIs p " " then
        if afterSpace then skipFrom true value prest
        else match value with
             | String v _ =>
                 if byteIs v " " then skipFrom true (cutspace value) prest else None
             | EmptyString => skipFrom true value prest
             end
      else match value with
           | String v vrest => if byteIs v p then skipFrom false vrest prest else None
           | EmptyString => None
           end
  end.

Definition skip (value prefix : string) : option string := skipFrom false value prefix.

Definition digitVal (c : ascii) : Z := Z.of_nat (nat_of_ascii c) - 48.

Definition getnum (s : string) (fixed : bool) : option (Z * string) :=
  match s with
  | String a rest =>
      if isDigit a then
        match rest with
        | String b rest' =>
            if isDigit b then Some (digitVal a * 10 + digitVal b, rest')%Z
            else if fixed then None else Some (digitVal a, rest)
        | EmptyString => if fixed then None else Some (digitVal a, rest)
        end
      else None
  | EmptyString => None
  end.

Fixpoint leadingInt (s : string) (x : Z) : Z * string :=
  match s with
  | String c rest => if isDigit c then leadingInt rest (x * 10 + digitVal c)%Z else (x, s)
  | EmptyString => (x, EmptyString)
  end.

(** [atoi]: an optional sign and digits up to the end of the string (the
    overflow check of [leadingInt] cannot fire on the at most nine digits
    it receives here). *)
Definition atoi (s : string) : option Z :=
  let '(neg, s') :=
    match s with
    | String c rest =>
        if byteIs c "-" then (true, rest)
        else if byteIs c "+" then (false, rest)
        else (false, s)
    | EmptyString => (false, s)
    end in
  match leadingInt s' 0 with
  | (q, EmptyString) => Some (if neg then (- q)%Z else q)
  | (_, String _ _) => None
  end.

Definition commaOrPeriod (c : ascii) : bool := byteIs c "." || byteIs c ",".

(** [parseNanoseconds(value, nbytes)]; [None] covers both [errBad] and a
    range error. *)
Definition parseNanoseconds (value : string) (nbytes : nat) : option Z :=
  match value with
  | String c _ =>
      if commaOrPeriod c then
        let '(value, nbytes) :=
          if (10 <? nbytes)%nat then (substring 0 10 value, 10%nat) else (value, nbytes) in
        match atoi (substring 1 (nbytes - 1) value) with
        | Some ns => if (ns <? 0)%Z then None else Some (ns * 10 ^ Z.of_nat (10 - nbytes))%Z
        | None => None
        end
      else None
  | EmptyString => None
  end.

(** The time being constructed by [parse]. *)
Record fields : Type := mkFields
  { year : Z; month : Z; day : Z;
    hour : Z; min : Z; sec : Z; nsec : Z;
    zUTC : bool;
    zoneOffset : Z }.

Definition initFields : fields := mkFields 0 (-1) (-1) 0 0 0 0 false (-1).

Definition setYear (f : fields) (v : Z) : fields :=
  mkFields v (month f) (day f) (hour f) (min f) (sec f) (nsec f) (zUTC f) (zoneOffset f).
Definition setMonth (f : fields) (v : Z) : fields :=
  mkFields (year f) v (day f) (hour f) (min f) (sec f) (nsec f) (zUTC f) (zoneOffset f).
Definition setDay (f : fields) (v : Z) : fields :=
  mkFields (year f) (month f) v (hour f) (min f) (sec f) (nsec f) (zUTC f) (zoneOffset f).
Definition setHour (f : fields) (v : Z) : fields :=
  mkFields (year f) (month f) (day f) v (min f) (sec f) (nsec f) (zUTC f) (zoneOffset f).
Definition setMin (f : fields) (v : Z) : fields :=
  mkFields (year f) (month f) (day f) (hour f) v (sec f) (nsec f) (zUTC f) (zoneOffset f).
Definition setSec (f : fields) (v : Z) : fields :=
  mkFields (year f) (month f) (day f) (hour f) (min f) v (nsec f) (zUTC f) (zoneOffset f).
Definition setNsec (f : fields) (v : Z) : fields :=
  mkFields (year f) (month f) (day f) (hour f) (min f) (sec f) v (zUTC f) (zoneOffset f).
Definition setUTC (f : fields) : fields :=
  mkFields (year f) (month f) (day f) (hour f) (min f) (sec f) (nsec f) true (zoneOffset f).
Definition setZoneOffset (f : fields) (v : Z) : fields :=
  mkFields (year f) (month f) (day f) (hour f) (min f) (sec f) (nsec f) (zUTC f) v.

Definition isFracSecond (s : std) : bool :=
  match s with
  | stdFracSecond0 _ => true
  | _ => false
  end.

(** One iteration of the loop of [parse] for the element [s]; [layout] is
    the rest of the layout.  [None] is an error (bad value or out of
    range). *)
Definition parseStd (s : std) (layout value : string) (f : fields)
  : option (string * fields) :=
  match s with
  | stdLongYear =>
      if (String.length value <? 4)%nat || negb (isDigitAt value 0) then None
      else match atoi (substring 0 4 value) with
           | Some y => Some (dropBytes 4 value, setYear f y)
           | None => None
           end
  | stdZeroMonth =>
      match getnum value true with
      | Some (m, value') =>
          if (m <=? 0)%Z || (12 <? m)%Z then None else Some (value', setMonth f m)
      | None => None
      end
  | stdZeroDay =>
      match getnum value true with
      | Some (d, value') => Some (value', setDay f d)
      | None => None
      end
  | stdHour =>
      match getnum value false with
      | Some (h, value') =>
          if (h <? 0)%Z || (24 <=? h)%Z then None else Some (value', setHour f h)
      | None => None
      end
  | stdZeroMinute =>
      match getnum value true with
      | Some (m, value') =>
          if (m <? 0)%Z || (60 <=? m)%Z then None else Some (value', setMin f m)
      | None => None
      end
  | stdZeroSecond =>
      match getnum value true with
      | Some (sc, value') =>
          if (sc <? 0)%Z || (60 <=? sc)%Z then None
          else
            let f := setSec f sc in
            match value' with
            | String c _ =>
                if commaOrPeriod c && isDigitAt value' 1 then
                  match nextStdChunk layout with
                  | (_, next, _) =>
                      if isFracSecond next then Some (value', f)
                      else
                        let n := (2 + runDigits (dropBytes 2 value'))%nat in
                        match parseNanoseconds value' n with
                        | Some ns => Some (dropBytes n value', setNsec f ns)
                        | None => None
                        end
                  end
                else Some (value', f)
            | EmptyString => Some (value', f)
            end
      | None => None
      end
  | stdFracSecond0 digits =>
      let ndigit := S digits in
      if (String.length value <? ndigit)%nat then None
      else match parseNanoseconds value ndigit with
           | Some ns => Some (dropBytes ndigit value, setNsec f ns)
           | None => None
           end
  | stdISO8601ColonTZ =>
      match value with
      | String c rest =>
          if byteIs c "Z" then Some (rest, setUTC f)
          else if (String.length value <? 6)%nat then None
          else if negb (match String.get 3 value with
                        | Some d => byteIs d ":"
                        | None => false
                        end) then None
          else
            match getnum (substring 1 2 value) true, getnum (substring 4 2 value) true with
            | Some (hr, _), Some (mm, _) =>
                if (24 <? hr)%Z || (60 <? mm)%Z then None
                else
                  let off := ((hr * 60 + mm) * 60)%Z in
                  if byteIs c "+" then Some (dropBytes 6 value, setZoneOffset f off)
                  else if byteIs c "-" then Some (dropBytes 6 value, setZoneOffset f (- off))
                  else None
            | _, _ => None
            end
      | EmptyString => None
      end
  | stdNone | stdOther => None
  end.

Fixpoint parseLoop (fuel : nat) (layout value : string) (f : fields) : option fields :=
  match fuel with
  | O => None
  | S fuel' =>
      match nextStdChunk layout with
      | (prefix, s, suffix) =>
          match skip value prefix with
          | None => None
          | Some value =>
              match s with
              | stdNone =>
                  match value with
                  | EmptyString => Some f
                  | String _ _ => None
                  end
              | _ =>
                  match parseStd s suffix value f with
                  | Some (value', f') => parseLoop fuel' suffix value' f'
                  | None => None
                  end
              end
          end
      end
  end.

Definition isLeap (y : Z) : bool :=
  ((y mod 4 =? 0) && (negb (y mod 100 =? 0) || (y mod 400 =? 0)))%Z.

Definition daysIn (m y : Z) : Z :=
  if (m =? 2)%Z then (if isLeap y then 29 else 28)%Z
  else if ((m =? 4) || (m =? 6) || (m =? 9) || (m =? 11))%Z then 30%Z
  else 31%Z.

(** Days from 1970-01-01 to the given day of the proleptic Gregorian
    calendar. *)
Definition daysFromCivil (y m d : Z) : Z :=
  let y' := (if m <=? 2 then y - 1 else y)%Z in
  let era := (y' / 400)%Z in
  let yoe := (y' - era * 400)%Z in
  let doy := ((153 * (if 2 <? m then m - 3 else m + 9) + 2) / 5 + d - 1)%Z in
  let doe := (yoe * 365 + yoe / 4 - yoe / 100 + doy)%Z in
  (era * 146097 + doe - 719468)%Z.

(** [Date] in UTC, for fields that are in range. *)
Definition dateUnix (y m d hh mm ss : Z) : Z :=
  (daysFromCivil y m d * 86400 + hh * 3600 + mm * 60 + ss)%Z.

(** [time.Parse(layout, value)].  A value with a numeric zone offset is
    presented in a fixed zone (or in the local zone when the offset is the
    local one, which [UTC] erases). *)
Definition Parse (layout value : string) : option Time :=
  match parseLoop (S (String.length layout)) layout value initFields with
  | None => None
  | Some f =>
      let m := (if month f <? 0 then 1 else month f)%Z in
      let d := (if day f <? 0 then 1 else day f)%Z in
      if (d <? 1)%Z || (daysIn m (year f) <? d)%Z then None
      else
        let t := dateUnix (year f) m d (hour f) (min f) (sec f) in
        if zUTC f then Some (mkTime t (nsec f) UTC)
        else if negb (zoneOffset f =? -1)%Z then
          Some (mkTime (t - zoneOffset f) (nsec f) (FixedZone (zoneOffset f)))
        else Some (mkTime t (nsec f) UTC)
  end.

End GoTime.

(** ** Construction ([NewValidator]) and a reference engine

    The generic engine (go-playground/validator) is an external collaborator.
    [engineStruct] is a small instance of its [Struct] method, enough to run
    the package's own rules on flat records: per field, the rules of the
    [validate] tag are tried in order and the first one that fails is
    reported.  The general results below hold for every engine; this one
    serves to run them on concrete records. *)

Definition Func : Type := FieldLevel -> outcome bool.

Definition RegisterValidation (registry : list (string * Func)) (tag : string) (fn : Func)
  : list (string * Func) := (tag, fn) :: registry.

Fixpoint lookupRule (registry : list (string * Func)) (tag : string) : option Func :=
  match registry with
  | [] => None
  | (k, fn) :: rest => if String.eqb k tag then Some fn else lookupRule rest tag
  end.

(** The closure given to [RegisterTagNameFunc]. *)
Definition tagNameFunc (fld : StructField) : string :=
  let name := firstOf (strings_Split (StructTag_Get (sf_Tag fld) "json") comma) in
  if String.eqb name "-" then EmptyString else name.

(** The engine keeps the Go field name when the function returns the empty
    string. *)
Definition altName (fld : StructField) : string :=
  let name := tagNameFunc fld in
  if String.eqb name "" then sf_Name fld else name.

(** A rule of a [validate] tag, [tag] or [tag=param]. *)
Fixpoint parseRule (r : string) : string * string :=
  match r with
  | EmptyString => (EmptyString, EmptyString)
  | String c rest =>
      if Ascii.eqb c "=" then (EmptyString, rest)
      else match parseRule rest with
           | (t, p) => (String c t, p)
           end
  end.

Definition fieldRules (f : StructField) : list (string * string) :=
  let t := StructTag_Get (sf_Tag f) "validate" in
  if String.eqb t "" || String.eqb t "-" then []
  else map parseRule (strings_Split t comma).

Section Engine.

Variable registry : list (string * Func).

Fixpoint firstFailure (rules : list (string * string)) (fl : string -> FieldLevel)
  : outcome (option (string * string)) :=
  match rules with
  | [] => Ret None
  | (tag, param) :: rest =>
      match lookupRule registry tag with
      | None => Panic ("Undefined validation function '" ++ tag ++ "'")
      | Some fn =>
          ok <- fn (fl param) ;;
          if ok then firstFailure rest fl else Ret (Some (tag, param))
      end
  end.

Fixpoint validateFields (parent : Value) (ns : string) (fs : list (StructField * Value))
  : outcome (list FieldError) :=
  match fs with
  | [] => Ret []
  | (f, v) :: rest =>
      r <- firstFailure (fieldRules f)
             (fun param => mkFieldLevel (Some v) param (Some parent)) ;;
      errs <- validateFields parent ns rest ;;
      Ret (match r with
           | Some (tag, param) =>
               mkFieldError (ns ++ altName f) (altName f) tag param :: errs
           | None => errs
           end)
  end.

Definition engineStruct (s : any) : outcome StructResult :=
  let val := match s with
             | Some (VPtr _ (Some v)) => Some v
             | _ => s
             end in
  match val with
  | Some (VStruct name fs) =>
      errs <- validateFields (VStruct name fs)
                (if String.eqb name "" then EmptyString else name ++ ".")%string fs ;;
      Ret (match errs with
           | [] => StructOk
           | _ :: _ => ValidationErrors errs
           end)
  | _ => Ret InvalidValidationError
  end.

End Engine.

(** The engine's own [required] rule on strings, and its English message. *)
Definition requiredRule (fl : FieldLevel) : outcome bool :=
  Ret (match fl_Field fl with
       | Some (VString s) => negb (String.eqb s "")
       | Some _ => true
       | None => false
       end).

Definition defaultTranslation (e : FieldError) : string :=
  if String.eqb (Tag e) "required" then (Field e ++ " is a required field")%string
  else EmptyString.

Inductive ConstructionError : Type :=
| ErrInvalidCustomValidationTag.

Section Construction.

Variable time_Parse : string -> string -> option Time.

(** [isCPF] and [isCNPJ] belong to the package but are not in
    [validator.go]; they are taken as parameters. *)
Variables isCPF isCNPJ : string -> bool.

Definition validDocument (fl : FieldLevel) : bool :=
  let document := Value_String (fl_Field fl) in
  if isCPF document then true else isCNPJ document.

Definition pureRule (f : FieldLevel -> bool) : Func := fun fl => Ret (f fl).

Definition registerBuiltins (registry : list (string * Func)) : list (string * Func) :=
  let registry := RegisterValidation registry datetimeGteTag (validateDatetimeGTE time_Parse) in
  let registry := RegisterValidation registry documentTag (pureRule validDocument) in
  let registry := RegisterValidation registry decimal2placesTag (pureRule validDecimalValue) in
  let registry := RegisterValidation registry brZipCodeTag (pureRule validateBrZipCode) in
  RegisterValidation registry iso8601dateTag (pureRule (validateISO8601Date time_Parse)).

Fixpoint registerCustom (registry : list (string * Func))
  (customValidations : list (string * Func))
  : ConstructionError + list (string * Func) :=
  match customValidations with
  | [] => inr registry
  | (k, v) :: rest =>
      if negb (strings_HasPrefix k customPrefix) then inl ErrInvalidCustomValidationTag
      else registerCustom (RegisterValidation registry k v) rest
  end.

Definition NewValidator (customValidations : list (string * Func))
  (messageErrors : list (string * string)) : ConstructionError + genericValidator :=
  match registerCustom [("required", requiredRule)] customValidations with
  | inl e => inl e
  | inr registry =>
      inr (mkGenericValidator (engineStruct (registerBuiltins registry))
             defaultTranslation messageErrors)
  end.

End Construction.

(** The validator of the package's tests: [NewValidator(nil, nil)] over the
    model of [time.Parse].  The document checks are not in [validator.go];
    this instance rejects every document. *)
Definition testValidator : genericValidator :=
  match NewValidator GoTime.Parse (fun _ => false) (fun _ => false) [] [] with
  | inr gv => gv
  | inl _ => mkGenericValidator (fun _ => Ret StructOk) defaultTranslation []
  end.

(** ** Auxiliary notions used in the statements *)

(** The name resolved for one identifier on a struct type, or on a pointer
    to one: the first comma-separated part of the first non-empty value among
    the [json], [param] and [query] tags and the identifier itself. *)
Definition pickedTag (f : StructField) (field : string) : string :=
  if String.eqb (StructTag_Get (sf_Tag f) "json") "" then
    if String.eqb (StructTag_Get (sf_Tag f) "param") "" then
      if String.eqb (StructTag_Get (sf_Tag f) "query") "" then field
      else StructTag_Get (sf_Tag f) "query"
    else StructTag_Get (sf_Tag f) "param"
  else StructTag_Get (sf_Tag f) "json".

Definition fieldOrZero (fs : list StructField) (field : string) : StructField :=
  match lookupField fs field with
  | Some f => f
  | None => zeroStructField
  end.

(** The resolver as the specification words it for rule parameters: the
    omit marker ["-"] of the serialization-name source is passed over, and
    the remaining sources are consulted. *)
Definition spec_pickedTag (f : StructField) (field : string) : string :=
  let json := StructTag_Get (sf_Tag f) "json" in
  if String.eqb json "" || String.eqb json "-" then
    if String.eqb (StructTag_Get (sf_Tag f) "param") "" then
      if String.eqb (StructTag_Get (sf_Tag f) "query") "" then field
      else StructTag_Get (sf_Tag f) "query"
    else StructTag_Get (sf_Tag f) "param"
  else json.

Definition spec_jsonTagName (fs : list StructField) (field : string) : string :=
  firstOf (strings_Split (spec_pickedTag (fieldOrZero fs field) field) comma).

(** A record with a field that is omitted from the serialized form and
    carries a [param] name. *)
Definition omittedField : StructField :=
  mkStructField "Secret" [("json", "-"); ("param", "secret_param")].

Definition omittedRecord : Value :=
  VStruct "Form" [(omittedField, VString "x");
                  (mkStructField "Other" [("json", "other")], VString "")].

(** The reason the specification gives for [required_without_all]. *)
Definition spec_requiredWithoutAllReason (field : string) (siblings : list string) : string :=
  (field ++ " is required if none of: " ++ strings_Join siblings ", " ++ " are present")%string.

(** The reason the source builds with [fmt.Sprintf]. *)
Definition requiredWithoutAllReason (field : string) (siblings : list string) : string :=
  ("at least one of these fields are required: " ++ field ++ ", "
     ++ strings_Join siblings ", ")%string.

(** A record with three contact fields and a violation of the rule
    [required_without_all=Phone Fax] on the first. *)
Definition contactRecord : Value :=
  VStruct "Contact"
    [(mkStructField "Email" [("json", "email")], VString "");
     (mkStructField "Phone" [("json", "phone")], VString "");
     (mkStructField "Fax" [("param", "fax_number")], VString "")].

Definition contactViolation : FieldError :=
  mkFieldError "Contact.email" "email" "required_without_all" "Phone Fax".

(** The language of a regular expression. *)
Inductive matches : regex -> string -> Prop :=
| MEps : matches REps EmptyString
| MClass (p : ascii -> bool) (c : ascii) :
    p c = true -> matches (RClass p) (String c EmptyString)
| MCat (r1 r2 : regex) (s1 s2 : string) :
    matches r1 s1 -> matches r2 s2 -> matches (RCat r1 r2) (s1 ++ s2)
| MAltL (r1 r2 : regex) (s : string) : matches r1 s -> matches (RAlt r1 r2) s
| MAltR (r1 r2 : regex) (s : string) : matches r2 s -> matches (RAlt r1 r2) s
| MStarNil (r : regex) : matches (RStar r) EmptyString
| MStarApp (r : regex) (s1 s2 : string) :
    matches r s1 -> matches (RStar r) s2 -> matches (RStar r) (s1 ++ s2).

Fixpoint allDigits (s : string) : bool :=
  match s with
  | EmptyString => true
  | String c rest => isDigit c && allDigits rest
  end.

Definition twoDigits (s : string) : Prop :=
  exists d1 d2, s = String d1 (String d2 EmptyString) /\ isDigit d1 = true /\ isDigit d2 = true.

(** The values the source accepts: two digits, alone or preceded by a run of
    digits (possibly empty) and one dot. *)
Definition decimal2places (s : string) : Prop :=
  exists pre frac,
    s = (pre ++ frac)%string /\ twoDigits frac
    /\ (pre = EmptyString \/ exists ip, pre = (ip ++ ".")%string /\ allDigits ip = true).

(** The values the specification describes: an optional integer part, an
    optional single dot, two trailing digits, each on its own. *)
Definition spec_decimal2places (s : string) : Prop :=
  exists ip sep frac,
    s = (ip ++ sep ++ frac)%string /\ allDigits ip = true
    /\ (sep = EmptyString \/ sep = ".") /\ twoDigits frac.

Definition stringField (s : string) : FieldLevel :=
  mkFieldLevel (Some (VString s)) EmptyString None.

(** [u] is not after [t]: the order of instants, whatever the locations. *)
Definition Time_le (u t : Time) : Prop :=
  (unixSec u < unixSec t)%Z \/ (unixSec u = unixSec t /\ (nsec u <= nsec t)%Z).

(** The enclosing record of a field: a struct, or a pointer to one. *)
Definition parentRecord (parent : rvalue) (fs : list (StructField * Value)) : Prop :=
  (exists n, parent = Some (VStruct n fs))
  \/ (exists e n, parent = Some (VPtr e (Some (VStruct n fs)))).

Definition isSuffixOf (rest value : string) : Prop := exists p, value = (p ++ rest)%string.

(** The layout ends with the literal byte [Z], after its last element. *)
Fixpoint endsWithLiteralZ (fuel : nat) (layout : string) : Prop :=
  match fuel with
  | O => False
  | S fuel' =>
      match GoTime.nextStdChunk layout with
      | (prefix, GoTime.stdNone, _) => prefix = "Z"
      | (_, _, suffix) => endsWithLiteralZ fuel' suffix
      end
  end.

(** The layout has no zone element. *)
Fixpoint noZoneElement (fuel : nat) (layout : string) : Prop :=
  match fuel with
  | O => True
  | S fuel' =>
      match GoTime.nextStdChunk layout with
      | (_, GoTime.stdNone, _) => True
      | (_, GoTime.stdISO8601ColonTZ, _) => False
      | (_, _, suffix) => noZoneElement fuel' suffix
      end
  end.

(** The order of the layouts as the specification lists it, with a
    zone-less minute layout in the second place. *)
Definition spec_layouts : list string :=
  [ defaultFormat;
    "2006-01-02T15:04";
    DateTimeZeroFormat;
    MilisecondsFormat;
    "2006-01-02T15:04:05";
    "2006-01-02 15:04";
    "2006-01-02 15:04:05";
    "2006-01-02 15:04:05.000";
    "2006-01-02" ].

(** Records of the package's tests: [Model], and the pair of date fields
    with the rule [strdatetimegte=param] on the second. *)
Definition requiredModel (v : string) : Value :=
  VStruct "Model"
    [(mkStructField "RequiredField" [("json", "required_field"); ("validate", "required")],
      VString v)].

Definition requiredModelType : GoType := typeOfValue (requiredModel EmptyString).

Definition isRequiredFieldProblemJSON : Problem :=
  [("status", PInt 400);
   ("invalid_params",
    PInvalidParams [mkInvalidParam "required_field" "required_field is a required field"])].

Definition datePairFields (param field1 field2 : string) : list (StructField * Value) :=
  [(mkStructField "Field1" [], VString field1);
   (mkStructField "Field2" [("json", "field2"); ("validate", "strdatetimegte=" ++ param)%string],
    VString field2)].

Definition datePairLevel (param field1 field2 : string) : FieldLevel :=
  mkFieldLevel (Some (VString field2)) param
    (Some (VStruct EmptyString (datePairFields param field1 field2))).

(** [time.Parse] reads [s] as [p] under the first layout of the list that
    accepts [s]: this is the value the rule compares. *)
Definition firstParse (time_Parse : string -> string -> option Time)
  (s : string) (p : Time) : Prop :=
  exists i layout,
    nth_error layouts i = Some layout
    /\ time_Parse layout s = Some p
    /\ (forall j l, (j < i)%nat -> nth_error layouts j = Some l -> time_Parse l s = None).

(** A date and time of day to the minute without any zone,
    [YYYY-MM-DDTHH:MM]: sixteen bytes, digits around the separators. *)
Definition zonelessMinute (s : string) : Prop :=
  exists y1 y2 y3 y4 m1 m2 d1 d2 h1 h2 n1 n2 : ascii,
    s = String y1 (String y2 (String y3 (String y4 (String "-"
          (String m1 (String m2 (String "-" (String d1 (String d2 (String "T"
             (String h1 (String h2 (String ":" (String n1 (String n2 EmptyString)))))))))))))))
    /\ forallb isDigit [y1; y2; y3; y4; m1; m2; d1; d2; h1; h2; n1; n2] = true.

(** ** Further notions: strings, resolved names, record bodies *)

(** The byte [c] does not occur in [s]. *)
Fixpoint noByte (c : ascii) (s : string) : bool :=
  match s with
  | EmptyString => true
  | String x rest => negb (Ascii.eqb x c) && noByte c rest
  end.

(** The name [getJsonTagNameFromPropertyName] resolves for one identifier
    on the fields of a record type. *)
Definition resolvedName (fs : list StructField) (field : string) : string :=
  firstOf (strings_Split (pickedTag (fieldOrZero fs field) field) comma).

(** The postal codes the source accepts: five digits, an optional hyphen,
    three digits. *)
Definition brZipCode (s : string) : Prop :=
  exists a sep b,
    s = (a ++ sep ++ b)%string
    /\ String.length a = 5%nat /\ allDigits a = true
    /\ (sep = EmptyString \/ sep = "-")
    /\ String.length b = 3%nat /\ allDigits b = true.

(** A body the engine validates: a record, or a pointer to a record type,
    with the field descriptors [fs]. *)
Definition recordBody (body : any) (fs : list StructField) : Prop :=
  (exists n vs, body = Some (VStruct n vs) /\ map fst vs = fs)
  \/ (exists n target, body = Some (VPtr (TStruct n fs) target)).

(** The problem [validate] builds around a list of invalid parameters. *)
Definition invalidParamsProblem (invalidParams : list InvalidParam) : Problem :=
  [("status", PInt 400); ("invalid_params", PInvalidParams invalidParams)].

Definition typeAssertionPanic : string :=
  "interface conversion: error is *validator.InvalidValidationError, not validator.ValidationErrors".

(** The number written by two, and by four, decimal digits. *)
Definition decimal2 (a b : ascii) : Z := (GoTime.digitVal a * 10 + GoTime.digitVal b)%Z.

Definition decimal4 (a b c d : ascii) : Z :=
  (((GoTime.digitVal a * 10 + GoTime.digitVal b) * 10 + GoTime.digitVal c) * 10
   + GoTime.digitVal d)%Z.

(** A calendar date written [YYYY-MM-DD]: ten bytes, digits around two
    hyphens, a month from 1 to 12 and a day of that month of that year. *)
Definition isoDate (s : string) : Prop :=
  exists y1 y2 y3 y4 m1 m2 d1 d2 : ascii,
    s = String y1 (String y2 (String y3 (String y4 (String "-"
          (String m1 (String m2 (String "-" (String d1 (String d2 EmptyString)))))))))
    /\ forallb isDigit [y1; y2; y3; y4; m1; m2; d1; d2] = true
    /\ (1 <= decimal2 m1 m2 <= 12)%Z
    /\ (1 <= decimal2 d1 d2 <= GoTime.daysIn (decimal2 m1 m2) (decimal4 y1 y2 y3 y4))%Z.

(** Sample values for the statements below: a field whose [json] tag
    carries an option, violations on the contact record and on the pair of
    date fields, and a validator with the custom message of the package's
    test. *)
Definition optionsField : StructField :=
  mkStructField "Nick" [("json", "nick,omitempty"); ("param", "nickname")].

Definition contactFields : list StructField :=
  [mkStructField "Email" [("json", "email")];
   mkStructField "Phone" [("json", "phone")];
   mkStructField "Fax" [("param", "fax_number")]].

Definition requiredWithViolation : FieldError :=
  mkFieldError "Contact.email" "email" "required_with" "Phone Fax".

Definition dateViolation : FieldError :=
  mkFieldError "field2" "field2" datetimeGteTag "Field1".

Definition requiredViolation : FieldError :=
  mkFieldError "Model.required_field" "required_field" "required" EmptyString.

Definition customViolation : FieldError :=
  mkFieldError "custom_field" "custom_field" "customValidationEnum" EmptyString.

Definition customMessageValidator : genericValidator :=
  mkGenericValidator (tagValidator testValidator) defaultTranslation
    [("customValidationEnum", "custom_field must be one of this values [1 2]")].

(** A field value that is not a string: the zero Value or a value of
    another kind. *)
Definition nonStringValue (v : rvalue) : Prop :=
  match v with
  | Some (VString _) => False
  | _ => True
  end.

(** The custom rule of the package's test and the map that registers
    it. *)
Definition validCustomEnum : Func :=
  fun fl => Ret (existsb (String.eqb (Value_String (fl_Field fl))) ["1"; "2"]).

Definition customTags : list (string * Func) :=
  [("customValidationEnum", validCustomEnum)].

(** * Properties *)

(** ** The dispatcher *)

Lemma bind_Ret_inv (A B : Type) (c : outcome A) (k : A -> outcome B) (b : B) :
  bind c k = Ret b -> exists a, c = Ret a /\ k a = Ret b.
Proof.
  destruct c as [a|m]; simpl; intros H.
  - exists a; split; [reflexivity | exact H].
  - discriminate H.
Qed.

Lemma Validate_slice (gv : genericValidator) (elem : GoType) (xs : list Value) :
  Validate gv (Some (VSlice elem xs)) =
  match xs with
  | [] => Ret (error_Problem (Some cannotBeEmptyArrayProblemJSON))
  | _ :: _ => validateElements gv xs
  end.
Proof.
  destruct xs; reflexivity.
Qed.

(** An element passes when the engine reports nothing for it. *)
Lemma validate_StructOk (gv : genericValidator) (body : any) :
  tagValidator gv body = Ret StructOk -> validate gv body = Ret None.
Proof.
  intros H; unfold validate; rewrite H; reflexivity.
Qed.

Lemma validateElements_all_pass (gv : genericValidator) (xs : list Value) :
  (forall x, In x xs -> validate gv (Some x) = Ret None) ->
  validateElements gv xs = Ret error_nil.
Proof.
  induction xs as [|x xs IH]; intros Hall; simpl.
  - reflexivity.
  - unfold Value_Interface.
    rewrite (Hall x (or_introl eq_refl)); simpl.
    apply IH; intros y Hy; apply Hall; right; exact Hy.
Qed.

Lemma validateElements_first_failure (gv : genericValidator) (xs : list Value) :
  forall (i : nat) (x : Value) (p : Problem),
    nth_error xs i = Some x ->
    validate gv (Some x) = Ret (Some p) ->
    (forall j y, (j < i)%nat -> nth_error xs j = Some y -> validate gv (Some y) = Ret None) ->
    validateElements gv xs = Ret (error_Problem (Some p)).
Proof.
  induction xs as [|a xs IH]; intros i x p Hnth Hx Hbefore.
  - destruct i; discriminate Hnth.
  - destruct i as [|i]; simpl in Hnth |- *; unfold Value_Interface.
    + injection Hnth as ->. rewrite Hx; reflexivity.
    + rewrite (Hbefore 0%nat a (Nat.lt_0_succ i) eq_refl); simpl.
      apply (IH i x p Hnth Hx).
      intros j y Hj Hy. apply (Hbefore (S j) y); [lia | exact Hy].
Qed.

(** Every problem built by [validate] carries the [invalid_params] list,
    which the empty-collection problem does not. *)
Lemma validate_problem_has_invalid_params (gv : genericValidator) (body : any) (p : Problem) :
  validate gv body = Ret (Some p) ->
  exists l, problem_get p "invalid_params" = Some (PInvalidParams l).
Proof.
  unfold validate; intros H.
  apply bind_Ret_inv in H; destruct H as [err [_ H]].
  destruct err as [|errs|]; try discriminate H.
  destruct (0 <? List.length errs)%nat; try discriminate H.
  apply bind_Ret_inv in H; destruct H as [l [_ H]].
  injection H as <-. exists l; reflexivity.
Qed.

(** C1.  On a non-empty slice [Validate] goes through the elements in order:
    it returns the problem of the first element whose validation yields one
    (the elements before it having passed), and the nil error when every
    element passes, in particular when the engine accepts every element. *)
Theorem Validate_slice_first_failure
  (gv : genericValidator) (elem : GoType) (xs : list Value) :
  xs <> [] ->
  (forall i x p,
      nth_error xs i = Some x ->
      validate gv (Some x) = Ret (Some p) ->
      (forall j y, (j < i)%nat -> nth_error xs j = Some y -> validate gv (Some y) = Ret None) ->
      Validate gv (Some (VSlice elem xs)) = Ret (error_Problem (Some p)))
  /\ ((forall x, In x xs -> validate gv (Some x) = Ret None) ->
      Validate gv (Some (VSlice elem xs)) = Ret error_nil)
  /\ ((forall x, In x xs -> tagValidator gv (Some x) = Ret StructOk) ->
      Validate gv (Some (VSlice elem xs)) = Ret error_nil).
Proof.
  intros Hne. rewrite Validate_slice.
  destruct xs as [|a xs]; [contradiction Hne; reflexivity|].
  split; [|split].
  - intros i x p. apply validateElements_first_failure.
  - apply validateElements_all_pass.
  - intros Hok. apply validateElements_all_pass.
    intros x Hx. apply validate_StructOk, Hok, Hx.
Qed.

(** C2.  On an empty slice, whatever the element type and the engine,
    [Validate] returns the fixed problem: status 400, title
    "Cannot be empty." and no [invalid_params] entry. *)
Theorem Validate_empty_slice (gv : genericValidator) (elem : GoType) :
  Validate gv (Some (VSlice elem [])) = Ret (error_Problem (Some cannotBeEmptyArrayProblemJSON))
  /\ problem_get cannotBeEmptyArrayProblemJSON "status" = Some (PInt 400)
  /\ problem_get cannotBeEmptyArrayProblemJSON "title" = Some (PString "Cannot be empty.")
  /\ problem_get cannotBeEmptyArrayProblemJSON "invalid_params" = None.
Proof.
  repeat split.
Qed.

(** C8.  [Validate] panics on the nil interface (the nil dereference of
    [reflect.TypeOf(body).Kind()]), while a value of a kind the switch does
    not list is accepted with the nil error. *)
Theorem Validate_nil_panics (gv : genericValidator) :
  Validate gv None = Panic nilDereference
  /\ forall (k : Kind) (name : string),
      match k with
      | KSlice | KStruct | KPtr | KInterface => True
      | _ => Validate gv (Some (VBasic k name)) = Ret error_nil
      end.
Proof.
  split; [reflexivity|].
  intros k name; destruct k; exact I || reflexivity.
Qed.

(** C9.  An array, empty or not, is not treated as a sequence: [Validate]
    returns the nil error without consulting the engine. *)
Theorem Validate_array_passes (gv : genericValidator) (elem : GoType) (xs : list Value) :
  Validate gv (Some (VArray elem xs)) = Ret error_nil.
Proof.
  reflexivity.
Qed.

(** ** Field name resolution *)

Lemma jsonTagName_struct (n : string) (fs : list StructField) (field : string) :
  jsonTagName (Some (TStruct n fs)) field =
  Ret (firstOf (strings_Split (pickedTag (fieldOrZero fs field) field) comma)).
Proof.
  unfold jsonTagName, fieldOrZero, pickedTag; simpl.
  destruct (lookupField fs field) as [f|]; reflexivity.
Qed.

Lemma jsonTagName_ptr_struct (n : string) (fs : list StructField) (field : string) :
  jsonTagName (Some (TPtr (TStruct n fs))) field =
  Ret (firstOf (strings_Split (pickedTag (fieldOrZero fs field) field) comma)).
Proof.
  unfold jsonTagName, fieldOrZero, pickedTag; simpl.
  destruct (lookupField fs field) as [f|]; reflexivity.
Qed.

Lemma mapM_Ret (A B : Type) (f : A -> outcome B) (g : A -> B) (l : list A) :
  (forall a, f a = Ret (g a)) -> mapM f l = Ret (map g l).
Proof.
  intros H; induction l as [|a l IH]; simpl.
  - reflexivity.
  - rewrite H, IH; reflexivity.
Qed.

(** Resolution never panics on a record or on a pointer to a record type. *)
Lemma getJsonTagNameFromPropertyName_struct
  (param n : string) (fs : list (StructField * Value)) :
  getJsonTagNameFromPropertyName param (Some (VStruct n fs)) =
  Ret (map (fun field =>
              firstOf (strings_Split (pickedTag (fieldOrZero (map fst fs) field) field) comma))
         (strings_Split param space)).
Proof.
  unfold getJsonTagNameFromPropertyName; simpl.
  apply mapM_Ret; intros field; apply jsonTagName_struct.
Qed.

Lemma getJsonTagNameFromPropertyName_ptr
  (param n : string) (fs : list StructField) (target : option Value) :
  getJsonTagNameFromPropertyName param (Some (VPtr (TStruct n fs) target)) =
  Ret (map (fun field =>
              firstOf (strings_Split (pickedTag (fieldOrZero fs field) field) comma))
         (strings_Split param space)).
Proof.
  unfold getJsonTagNameFromPropertyName; simpl.
  apply mapM_Ret; intros field; apply jsonTagName_ptr_struct.
Qed.

(** C7, a defect of the code.  For a field tagged [json:"-"] the resolver
    of rule parameters returns the marker ["-"] itself as the name, where the
    remaining sources would give the [param] name; the name function given to
    the engine (its sibling for the same error output) does treat the marker.
    The marker then shows up in the reason of a violation. *)
Lemma omit_marker_no_fallthrough :
  getJsonTagNameFromPropertyName "Secret" (Some omittedRecord) = Ret ["-"]
  /\ spec_jsonTagName (map fst [(omittedField, VString "x")]) "Secret" = "secret_param"
  /\ getJsonTagNameFromPropertyName "Secret" (Some omittedRecord)
     <> Ret [spec_jsonTagName [omittedField] "Secret"]
  /\ tagNameFunc omittedField = EmptyString
  /\ translateReason testValidator (Some omittedRecord)
       (mkFieldError "Form.other" "other" "required_with" "Secret")
     = Ret "other is required if one of these fields are filled: -".
Proof.
  split; [reflexivity | split; [reflexivity | split; [discriminate|]]].
  split; reflexivity.
Qed.

(** The same on every record: the resolver has no case for the omit
    marker, so a field whose [json] value is ["-"] resolves to ["-"]; the
    remaining sources are consulted only when the [json] value is empty or
    absent. *)
Theorem omit_marker_resolves_to_itself
  (n : string) (fs : list StructField) (field : string) (f : StructField) :
  lookupField fs field = Some f ->
  (StructTag_Get (sf_Tag f) "json" = "-" ->
   jsonTagName (Some (TStruct n fs)) field = Ret "-"
   /\ jsonTagName (Some (TPtr (TStruct n fs))) field = Ret "-")
  /\ (StructTag_Get (sf_Tag f) "json" = "" ->
      forall r, jsonTagName (Some (TStruct n fs)) field = Ret r ->
      r = firstOf (strings_Split
                     (if String.eqb (StructTag_Get (sf_Tag f) "param") "" then
                        if String.eqb (StructTag_Get (sf_Tag f) "query") "" then field
                        else StructTag_Get (sf_Tag f) "query"
                      else StructTag_Get (sf_Tag f) "param") comma)).
Proof.
  intros Hf; split.
  - intros Hjson.
    rewrite jsonTagName_struct, jsonTagName_ptr_struct.
    unfold fieldOrZero, pickedTag; rewrite Hf, Hjson; split; reflexivity.
  - intros Hjson r.
    rewrite jsonTagName_struct.
    unfold fieldOrZero, pickedTag; rewrite Hf, Hjson; simpl.
    intros H; injection H as <-; reflexivity.
Qed.

Lemma omit_marker_resolves_to_itself_witness :
  lookupField [omittedField] "Secret" = Some omittedField
  /\ jsonTagName (Some (TStruct "Form" [omittedField])) "Secret" = Ret "-".
Proof.
  split; [reflexivity|].
  apply (proj1 (omit_marker_resolves_to_itself "Form" [omittedField] "Secret"
                  (f := omittedField) eq_refl)).
  reflexivity.
Defined.

(** ** Translation of violations *)

(** C5, refuted as stated: the reason built for a [required_without_all]
    violation is not the template of the specification. *)
Lemma required_without_all_reason_differs :
  translateReason testValidator (Some contactRecord) contactViolation
  = Ret "at least one of these fields are required: email, phone, fax_number"
  /\ spec_requiredWithoutAllReason "email" ["phone"; "fax_number"]
     = "email is required if none of: phone, fax_number are present"
  /\ translateReason testValidator (Some contactRecord) contactViolation
     <> Ret (spec_requiredWithoutAllReason "email" ["phone"; "fax_number"]).
Proof.
  split; [reflexivity | split; [reflexivity | discriminate]].
Qed.

Lemma Tag_not_custom (e : FieldError) :
  Tag e = "required_without_all" -> strings_HasPrefix (Tag e) customPrefix = false.
Proof.
  intros ->; reflexivity.
Qed.

(** C5, amended.  For every violation of the rule [required_without_all]
    the reason is "at least one of these fields are required: " followed by
    the field name and the resolved sibling names, all separated by ", ";
    the violation's name and reason make up its entry of the result. *)
Theorem required_without_all_reason
  (gv : genericValidator) (body : any) (e : FieldError) (tags : list string) :
  Tag e = "required_without_all" ->
  getJsonTagNameFromPropertyName (Param e) body = Ret tags ->
  translateReason gv body e = Ret (requiredWithoutAllReason (Field e) tags)
  /\ translate gv body e =
     Ret (mkInvalidParam (translateName e) (requiredWithoutAllReason (Field e) tags)).
Proof.
  intros Htag Htags.
  assert (Hr : translateReason gv body e = Ret (requiredWithoutAllReason (Field e) tags)).
  { unfold translateReason.
    rewrite (Tag_not_custom e Htag), Htag, Htags; reflexivity. }
  split; [exact Hr|].
  unfold translate; rewrite Hr; reflexivity.
Qed.

Lemma required_without_all_reason_witness :
  translateReason testValidator (Some contactRecord) contactViolation
  = Ret (requiredWithoutAllReason "email" ["phone"; "fax_number"]).
Proof.
  apply (proj1 (required_without_all_reason testValidator (Some contactRecord)
                  contactViolation (tags := ["phone"; "fax_number"]) eq_refl eq_refl)).
Defined.

(** ** Regular expressions: the matcher decides the language *)

Lemma append_nil_r (s : string) : (s ++ "")%string = s.
Proof.
  induction s as [|c s IH]; simpl; [reflexivity | rewrite IH; reflexivity].
Qed.

Lemma append_assoc (a b c : string) : ((a ++ b) ++ c)%string = (a ++ (b ++ c))%string.
Proof.
  induction a as [|x a IH]; simpl; [reflexivity | rewrite IH; reflexivity].
Qed.

Lemma append_eq_nil (a b : string) : (a ++ b)%string = EmptyString -> a = EmptyString /\ b = EmptyString.
Proof.
  destruct a; simpl; intros H; [split; [reflexivity | exact H] | discriminate H].
Qed.

Lemma append_eq_cons (a b : string) (c : ascii) (s : string) :
  (a ++ b)%string = String c s ->
  (a = EmptyString /\ b = String c s) \/ (exists a', a = String c a' /\ s = (a' ++ b)%string).
Proof.
  destruct a as [|x a]; simpl; intros H.
  - left; split; [reflexivity | exact H].
  - right; injection H as -> <-. exists a; split; reflexivity.
Qed.

Lemma matches_nil_nullable (r : regex) (s : string) :
  matches r s -> s = EmptyString -> nullable r = true.
Proof.
  induction 1 as [ | p c Hp | r1 r2 s1 s2 _ IH1 _ IH2 | r1 r2 s _ IH | r1 r2 s _ IH
                 | r | r s1 s2 _ _ _ _ ]; intros Hs; simpl.
  - reflexivity.
  - discriminate Hs.
  - apply append_eq_nil in Hs; destruct Hs as [H1 H2].
    rewrite (IH1 H1), (IH2 H2); reflexivity.
  - rewrite (IH Hs); reflexivity.
  - rewrite (IH Hs); apply orb_true_r.
  - reflexivity.
  - reflexivity.
Qed.

Lemma nullable_matches (r : regex) : nullable r = true -> matches r EmptyString.
Proof.
  induction r as [ | | p | r1 IH1 r2 IH2 | r1 IH1 r2 IH2 | r IH ]; simpl; intros H.
  - discriminate H.
  - constructor.
  - discriminate H.
  - apply andb_true_iff in H; destruct H as [H1 H2].
    apply (MCat (IH1 H1) (IH2 H2)).
  - apply orb_true_iff in H; destruct H as [H|H].
    + apply MAltL, IH1, H.
    + apply MAltR, IH2, H.
  - constructor.
Qed.

Lemma deriv_sound (c : ascii) (r : regex) :
  forall s, matches (deriv c r) s -> matches r (String c s).
Proof.
  induction r as [ | | p | r1 IH1 r2 IH2 | r1 IH1 r2 IH2 | r IH ]; simpl; intros s H.
  - inversion H.
  - inversion H.
  - destruct (p c) eqn:Hp; inversion H; subst. constructor; exact Hp.
  - destruct (nullable r1) eqn:Hn.
    + inversion H as [ | | | ? ? ? H' | ? ? ? H' | | ]; subst.
      * inversion H' as [ | | ? ? s1 s2 Ha Hb | | | | ]; subst.
        apply (MCat (IH1 _ Ha) Hb).
      * apply (MCat (s1 := EmptyString) (nullable_matches r1 Hn) (IH2 _ H')).
    + inversion H as [ | | ? ? s1 s2 Ha Hb | | | | ]; subst.
      apply (MCat (IH1 _ Ha) Hb).
  - inversion H; subst.
    + apply MAltL, IH1; assumption.
    + apply MAltR, IH2; assumption.
  - inversion H as [ | | ? ? s1 s2 Ha Hb | | | | ]; subst.
    apply (MStarApp (IH _ Ha) Hb).
Qed.

Lemma deriv_complete (r : regex) (t : string) :
  matches r t -> forall c s, t = String c s -> matches (deriv c r) s.
Proof.
  induction 1 as [ | p x Hp | r1 r2 s1 s2 H1 IH1 H2 IH2 | r1 r2 u _ IH | r1 r2 u _ IH
                 | r | r s1 s2 H1 IH1 H2 IH2 ]; intros c s Ht; simpl.
  - discriminate Ht.
  - injection Ht as -> <-. rewrite Hp; constructor.
  - apply append_eq_cons in Ht; destruct Ht as [[-> ->] | [a' [-> ->]]].
    + rewrite (matches_nil_nullable H1 eq_refl).
      apply MAltR, (IH2 c s eq_refl).
    + destruct (nullable r1).
      * apply MAltL, (MCat (IH1 c a' eq_refl) H2).
      * apply (MCat (IH1 c a' eq_refl) H2).
  - apply MAltL, (IH c s Ht).
  - apply MAltR, (IH c s Ht).
  - discriminate Ht.
  - apply append_eq_cons in Ht; destruct Ht as [[-> ->] | [a' [-> ->]]].
    + apply (IH2 c s eq_refl).
    + apply (MCat (IH1 c a' eq_refl) H2).
Qed.

Lemma fullMatch_matches (s : string) : forall r, fullMatch r s = true <-> matches r s.
Proof.
  induction s as [|c s IH]; intros r; simpl.
  - split; [apply nullable_matches | intros H; apply (matches_nil_nullable H eq_refl)].
  - rewrite IH; split.
    + apply deriv_sound.
    + intros H; apply (deriv_complete H eq_refl).
Qed.

(** For a pattern anchored at both ends [MatchString] is membership of the
    whole text in the language of the body. *)
Lemma MatchString_anchored (r : regex) (s : string) :
  MatchString (mkRegexp true r true) s = true <-> matches r s.
Proof.
  unfold MatchString; simpl. rewrite fullMatch_matches. split.
  - intros H.
    inversion H as [ | | ? ? s1 s2 Ha Hb | | | | ]; subst.
    inversion Ha; subst; simpl.
    inversion Hb as [ | | ? ? s3 s4 Hc Hd | | | | ]; subst.
    inversion Hd; subst. rewrite append_nil_r; exact Hc.
  - intros H.
    apply (MCat (s1 := EmptyString) MEps).
    rewrite <- (append_nil_r s). apply (MCat H MEps).
Qed.

(** ** The decimal rule *)

Lemma matches_RClass (p : ascii -> bool) (s : string) :
  matches (RClass p) s <-> exists c, s = String c EmptyString /\ p c = true.
Proof.
  split.
  - intros H; inversion H; subst. eexists; split; [reflexivity | assumption].
  - intros [c [-> Hc]]; constructor; exact Hc.
Qed.

Lemma matches_RChar (c : ascii) (s : string) :
  matches (RChar c) s <-> s = String c EmptyString.
Proof.
  unfold RChar; rewrite matches_RClass; split.
  - intros [x [-> Hx]]. apply Ascii.eqb_eq in Hx; subst; reflexivity.
  - intros ->. exists c; split; [reflexivity | apply Ascii.eqb_refl].
Qed.

Lemma matches_two_digits (s : string) :
  matches (RRepeat 2 RDigit) s <-> twoDigits s.
Proof.
  unfold twoDigits; simpl; split.
  - intros H.
    inversion H as [ | | ? ? s1 s2 Ha Hb | | | | ]; subst.
    inversion Hb as [ | | ? ? s3 s4 Hc Hd | | | | ]; subst.
    inversion Hd; subst.
    apply matches_RClass in Ha; destruct Ha as [d1 [-> H1]].
    apply matches_RClass in Hc; destruct Hc as [d2 [-> H2]].
    exists d1, d2; repeat split; assumption.
  - intros [d1 [d2 [-> [H1 H2]]]].
    apply (MCat (s1 := String d1 EmptyString) (s2 := String d2 EmptyString)).
    + constructor; exact H1.
    + apply (MCat (s1 := String d2 EmptyString) (s2 := EmptyString)).
      * constructor; exact H2.
      * constructor.
Qed.

Lemma allDigits_app (a b : string) :
  allDigits (a ++ b) = allDigits a && allDigits b.
Proof.
  induction a as [|c a IH]; simpl; [reflexivity|].
  rewrite IH, andb_assoc; reflexivity.
Qed.

Lemma matches_star_digits_sound (r : regex) (s : string) :
  matches r s -> r = RStar RDigit -> allDigits s = true.
Proof.
  induction 1 as [ | | | | | r | r s1 s2 H1 _ H2 IH2 ]; intros Hr; try discriminate Hr.
  - reflexivity.
  - injection Hr as ->.
    apply matches_RClass in H1; destruct H1 as [c [-> Hc]].
    simpl; rewrite Hc; apply IH2; reflexivity.
Qed.

Lemma matches_star_digits (s : string) :
  matches (RStar RDigit) s <-> allDigits s = true.
Proof.
  split.
  - intros H; apply (matches_star_digits_sound H eq_refl).
  - induction s as [|c s IH]; simpl; intros H.
    + constructor.
    + apply andb_true_iff in H; destruct H as [Hc Hs].
      apply (MStarApp (s1 := String c EmptyString)).
      * constructor; exact Hc.
      * apply IH, Hs.
Qed.

Lemma matches_decimal (s : string) :
  matches (body decimalValuesRegex) s <-> decimal2places s.
Proof.
  unfold decimal2places; simpl body; split.
  - intros H.
    inversion H as [ | | ? ? pre frac Hpre Hfrac | | | | ]; subst.
    exists pre, frac; split; [reflexivity|].
    split; [apply matches_two_digits, Hfrac|].
    inversion Hpre as [ | | | ? ? ? Ha | ? ? ? Ha | | ]; subst.
    + right.
      inversion Ha as [ | | ? ? ip d Hip Hd | | | | ]; subst.
      apply matches_RChar in Hd; subst d.
      exists ip; split; [reflexivity | apply matches_star_digits, Hip].
    + left; inversion Ha; reflexivity.
  - intros [pre [frac [-> [Hfrac Hpre]]]].
    apply MCat; [|apply matches_two_digits, Hfrac].
    destruct Hpre as [-> | [ip [-> Hip]]].
    + apply MAltR; constructor.
    + apply MAltL, MCat; [apply matches_star_digits, Hip | apply matches_RChar; reflexivity].
Qed.

(** C6, refuted as stated: ["1234"] is an integer part followed by two
    digits, with no dot, yet the rule rejects it. *)
Lemma decimal_without_dot_rejected :
  spec_decimal2places "1234" /\ validDecimalValue (stringField "1234") = false.
Proof.
  split; [|reflexivity].
  exists "12", EmptyString, "34"; split; [reflexivity|].
  split; [reflexivity|]. split; [left; reflexivity|].
  exists "3"%char, "4"%char; repeat split.
Qed.

(** C6, amended.  On a string value the decimal rule passes exactly when
    the value is two digits, alone or preceded by an optional integer part
    and one dot (the dot is present whenever the integer part is); no sign
    and no separator is accepted, ["12.34"] passes and ["123.000"] fails. *)
Theorem validDecimalValue_iff (s param : string) (parent : rvalue) :
  (validDecimalValue (mkFieldLevel (Some (VString s)) param parent) = true
   <-> decimal2places s)
  /\ validDecimalValue (stringField "12.34") = true
  /\ validDecimalValue (stringField "123.000") = false
  /\ validDecimalValue (stringField "-12.34") = false
  /\ validDecimalValue (stringField "1,234.56") = false.
Proof.
  split; [|repeat split].
  unfold validDecimalValue; simpl fl_Field; simpl Value_String.
  change decimalValuesRegex with (mkRegexp true (body decimalValuesRegex) true).
  rewrite MatchString_anchored. apply matches_decimal.
Qed.

(** ** The date rule *)

Lemma Time_Before_false_iff (t u : Time) : Time_Before t u = false <-> Time_le u t.
Proof.
  unfold Time_Before, Time_le.
  destruct (unixSec t <? unixSec u)%Z eqn:Hlt; simpl.
  - apply Z.ltb_lt in Hlt; split; [discriminate | lia].
  - apply Z.ltb_ge in Hlt.
    destruct (unixSec t =? unixSec u)%Z eqn:Heq; simpl.
    + apply Z.eqb_eq in Heq.
      destruct (nsec t <? nsec u)%Z eqn:Hn.
      * apply Z.ltb_lt in Hn; split; [discriminate | lia].
      * apply Z.ltb_ge in Hn; split; [intros _; right; split; [symmetry|]; assumption | reflexivity].
    + apply Z.eqb_neq in Heq; split; [intros _; left; lia | reflexivity].
Qed.

Lemma Time_le_UTC (u t : Time) : Time_le (Time_UTC u) (Time_UTC t) <-> Time_le u t.
Proof.
  unfold Time_le, Time_UTC; simpl; reflexivity.
Qed.

Section DateProperties.

Variable time_Parse : string -> string -> option Time.

(** The layouts are tried in order and the first success wins. *)
Lemma parseWith_first_success (ls : list string) (s : string) (u : UTCTime) :
  parseWith time_Parse ls s = Ok u <->
  exists i layout p,
    nth_error ls i = Some layout
    /\ time_Parse layout s = Some p
    /\ (forall j l, (j < i)%nat -> nth_error ls j = Some l -> time_Parse l s = None)
    /\ u = mkUTCTime (Time_UTC p).
Proof.
  revert u; induction ls as [|a ls IH]; intros u; simpl.
  - split; [discriminate|].
    intros [i [layout [p [Hn _]]]]; destruct i; discriminate Hn.
  - destruct (time_Parse a s) as [p|] eqn:Ha.
    + split.
      * intros H; injection H as <-.
        exists 0%nat, a, p; repeat split; try assumption.
        intros j l Hj; lia.
      * intros [i [layout [q [Hn [Hq [Hbefore ->]]]]]].
        destruct i as [|i].
        -- injection Hn as <-. rewrite Ha in Hq; injection Hq as ->; reflexivity.
        -- rewrite (Hbefore 0%nat a (Nat.lt_0_succ i) eq_refl) in Ha; discriminate Ha.
    + rewrite IH; split.
      * intros [i [layout [q [Hn [Hq [Hbefore ->]]]]]].
        exists (S i), layout, q; repeat split; try assumption.
        intros j l Hj Hl; destruct j as [|j].
        -- injection Hl as <-; exact Ha.
        -- apply (Hbefore j l); [lia | exact Hl].
      * intros [i [layout [q [Hn [Hq [Hbefore ->]]]]]].
        destruct i as [|i].
        -- injection Hn as <-. rewrite Ha in Hq; discriminate Hq.
        -- exists i, layout, q; repeat split; try assumption.
           intros j l Hj Hl; apply (Hbefore (S j) l); [lia | exact Hl].
Qed.

Lemma parseWith_all_fail (ls : list string) (s : string) :
  (forall layout, In layout ls -> time_Parse layout s = None) <->
  parseWith time_Parse ls s = Err ("invalid date format: " ++ s).
Proof.
  induction ls as [|a ls IH]; simpl.
  - split; [reflexivity | intros _ layout []].
  - destruct (time_Parse a s) as [p|] eqn:Ha.
    + split; [|discriminate].
      intros H; rewrite (H a (or_introl eq_refl)) in Ha; discriminate Ha.
    + rewrite <- IH; split.
      * intros H layout Hl; apply H; right; exact Hl.
      * intros H layout [<- | Hl]; [exact Ha | apply H, Hl].
Qed.

Lemma parseWith_Err_msg (ls : list string) (s msg : string) :
  parseWith time_Parse ls s = Err msg -> msg = ("invalid date format: " ++ s)%string.
Proof.
  induction ls as [|a ls IH]; simpl.
  - intros H; injection H as <-; reflexivity.
  - destruct (time_Parse a s); [discriminate | exact IH].
Qed.

Lemma parseToUTCTime_Ok_layout (s : string) :
  (exists u, parseToUTCTime time_Parse s = Ok u) <->
  (exists layout p, In layout layouts /\ time_Parse layout s = Some p).
Proof.
  unfold parseToUTCTime; split.
  - intros [u H]. apply parseWith_first_success in H.
    destruct H as [i [layout [p [Hn [Hp _]]]]].
    exists layout, p; split; [apply (nth_error_In _ _ Hn) | exact Hp].
  - intros [layout [p [Hin Hp]]].
    destruct (parseWith time_Parse layouts s) as [u|msg] eqn:H; [exists u; reflexivity|].
    rewrite (parseWith_Err_msg _ _ H) in H.
    apply parseWith_all_fail with (layout := layout) in H; [|exact Hin].
    rewrite H in Hp; discriminate Hp.
Qed.

Lemma parseToUTCTime_loc (s : string) (u : UTCTime) :
  parseToUTCTime time_Parse s = Ok u -> loc (utc_Time u) = UTC.
Proof.
  intros H; apply parseWith_first_success in H.
  destruct H as [i [layout [p [_ [_ [_ ->]]]]]]; reflexivity.
Qed.

(** On a record the sibling is read with [FieldByName], through the
    pointer when there is one, and the predicate is a comparison of the two
    parsed values. *)
Lemma validateDatetimeGTE_record (fl : FieldLevel) (fs : list (StructField * Value)) :
  parentRecord (fl_Parent fl) fs ->
  validateDatetimeGTE time_Parse fl =
  match parseToUTCTime time_Parse (Value_String (fl_Field fl)) with
  | Err _ => Ret false
  | Ok referenceField =>
      match parseToUTCTime time_Parse (Value_String (lookupFieldValue fs (fl_Param fl))) with
      | Err _ => Ret false
      | Ok compareField =>
          Ret (negb (Time_Before (utc_Time referenceField) (utc_Time compareField)))
      end
  end.
Proof.
  intros [[n Hp] | [e [n Hp]]]; unfold validateDatetimeGTE; rewrite Hp; simpl;
    destruct (parseToUTCTime time_Parse (Value_String (fl_Field fl))) as [a|]; try reflexivity;
    destruct (parseToUTCTime time_Parse (Value_String (lookupFieldValue fs (fl_Param fl)))) as [b|];
    try reflexivity;
    destruct (Time_Before (utc_Time a) (utc_Time b)); reflexivity.
Qed.

Lemma parseToUTCTime_firstParse (s : string) (u : UTCTime) :
  parseToUTCTime time_Parse s = Ok u <->
  exists p, firstParse time_Parse s p /\ u = mkUTCTime (Time_UTC p).
Proof.
  unfold parseToUTCTime, firstParse; rewrite parseWith_first_success; split.
  - intros [i [layout [p [Hn [Hp [Hbefore ->]]]]]].
    exists p; split; [exists i, layout; repeat split; assumption | reflexivity].
  - intros [p [[i [layout [Hn [Hp Hbefore]]]] ->]].
    exists i, layout, p; repeat split; assumption.
Qed.

Lemma firstParse_functional (s : string) (p q : Time) :
  firstParse time_Parse s p -> firstParse time_Parse s q -> p = q.
Proof.
  intros [i [li [Hi [Hp Hbi]]]] [j [lj [Hj [Hq Hbj]]]].
  destruct (Nat.lt_trichotomy i j) as [Hlt | [Heq | Hgt]].
  - rewrite (Hbj i li Hlt Hi) in Hp; discriminate Hp.
  - subst j. rewrite Hi in Hj; injection Hj as <-.
    rewrite Hp in Hq; injection Hq as <-; reflexivity.
  - rewrite (Hbi j lj Hgt Hj) in Hq; discriminate Hq.
Qed.

Lemma Time_Before_UTC (t u : Time) :
  Time_Before (Time_UTC t) (Time_UTC u) = Time_Before t u.
Proof.
  reflexivity.
Qed.

(** C3.  On a record, the date rule holds exactly when [time.Parse] reads
    the annotated value and the sibling value under some accepted layout
    (the first that accepts each) and the instant read for the sibling is not
    after the instant read for the annotated value; the comparison is made
    on the UTC forms, which keep the instants; equal instants pass, an
    annotated instant before the sibling's fails, and when either value
    parses under no layout the rule is violated (the predicate returns false
    and never an error). *)
Theorem validateDatetimeGTE_iff (fl : FieldLevel) (fs : list (StructField * Value)) :
  parentRecord (fl_Parent fl) fs ->
  let fieldValue := Value_String (fl_Field fl) in
  let otherValue := Value_String (lookupFieldValue fs (fl_Param fl)) in
  (validateDatetimeGTE time_Parse fl = Ret true <->
   exists pa pb,
     firstParse time_Parse fieldValue pa /\ firstParse time_Parse otherValue pb
     /\ Time_le pb pa)
  /\ (forall p, unixSec (Time_UTC p) = unixSec p /\ nsec (Time_UTC p) = nsec p
                /\ loc (Time_UTC p) = UTC)
  /\ (forall pa pb,
        firstParse time_Parse fieldValue pa -> firstParse time_Parse otherValue pb ->
        unixSec pa = unixSec pb -> nsec pa = nsec pb ->
        validateDatetimeGTE time_Parse fl = Ret true)
  /\ (forall pa pb,
        firstParse time_Parse fieldValue pa -> firstParse time_Parse otherValue pb ->
        ~ Time_le pb pa ->
        validateDatetimeGTE time_Parse fl = Ret false)
  /\ ((forall layout, In layout layouts -> time_Parse layout fieldValue = None)
      \/ (forall layout, In layout layouts -> time_Parse layout otherValue = None) ->
      validateDatetimeGTE time_Parse fl = Ret false)
  /\ (validateDatetimeGTE time_Parse fl = Ret true \/ validateDatetimeGTE time_Parse fl = Ret false).
Proof.
  intros Hparent fieldValue otherValue.
  rewrite (validateDatetimeGTE_record fl Hparent).
  fold fieldValue otherValue.
  assert (Hcmp : forall pa pb,
             firstParse time_Parse fieldValue pa -> firstParse time_Parse otherValue pb ->
             match parseToUTCTime time_Parse fieldValue with
             | Err _ => Ret false
             | Ok referenceField =>
                 match parseToUTCTime time_Parse otherValue with
                 | Err _ => Ret false
                 | Ok compareField =>
                     Ret (negb (Time_Before (utc_Time referenceField) (utc_Time compareField)))
                 end
             end = Ret (negb (Time_Before pa pb))).
  { intros pa pb Ha Hb.
    rewrite (proj2 (parseToUTCTime_firstParse fieldValue (mkUTCTime (Time_UTC pa))))
      by (exists pa; split; [exact Ha | reflexivity]).
    rewrite (proj2 (parseToUTCTime_firstParse otherValue (mkUTCTime (Time_UTC pb))))
      by (exists pb; split; [exact Hb | reflexivity]).
    reflexivity. }
  split; [|split; [|split; [|split; [|split]]]].
  - split.
    + destruct (parseToUTCTime time_Parse fieldValue) as [a|ma] eqn:Ha; [|discriminate].
      destruct (parseToUTCTime time_Parse otherValue) as [b|mb] eqn:Hb; [|discriminate].
      apply parseToUTCTime_firstParse in Ha; destruct Ha as [pa [Hpa ->]].
      apply parseToUTCTime_firstParse in Hb; destruct Hb as [pb [Hpb ->]].
      intros H. exists pa, pb; split; [exact Hpa | split; [exact Hpb|]].
      apply Time_Before_false_iff.
      injection H as H; apply negb_true_iff in H; exact H.
    + intros [pa [pb [Hpa [Hpb Hle]]]].
      rewrite (Hcmp pa pb Hpa Hpb).
      apply Time_Before_false_iff in Hle; rewrite Hle; reflexivity.
  - intros p; repeat split.
  - intros pa pb Hpa Hpb Hs Hn.
    rewrite (Hcmp pa pb Hpa Hpb).
    assert (Hle : Time_le pb pa) by (right; split; [symmetry|]; lia).
    apply Time_Before_false_iff in Hle; rewrite Hle; reflexivity.
  - intros pa pb Hpa Hpb Hnle.
    rewrite (Hcmp pa pb Hpa Hpb).
    destruct (Time_Before pa pb) eqn:Hb; [reflexivity|].
    apply Time_Before_false_iff in Hb; contradiction.
  - intros [H | H]; apply parseWith_all_fail in H; unfold parseToUTCTime.
    + rewrite H; reflexivity.
    + rewrite H. destruct (parseWith time_Parse layouts fieldValue); reflexivity.
  - destruct (parseToUTCTime time_Parse fieldValue) as [a|]; [|right; reflexivity].
    destruct (parseToUTCTime time_Parse otherValue) as [b|]; [|right; reflexivity].
    destruct (Time_Before (utc_Time a) (utc_Time b)); [right | left]; reflexivity.
Qed.

End DateProperties.

(** ** The layouts under the model of [time.Parse] *)

Lemma isSuffixOf_refl (s : string) : isSuffixOf s s.
Proof.
  exists EmptyString; reflexivity.
Qed.

Lemma isSuffixOf_trans (a b c : string) : isSuffixOf a b -> isSuffixOf b c -> isSuffixOf a c.
Proof.
  intros [p ->] [q ->]. exists (q ++ p)%string. symmetry; apply append_assoc.
Qed.

Lemma isSuffixOf_String (a b : string) (c : ascii) : isSuffixOf a b -> isSuffixOf a (String c b).
Proof.
  intros [p ->]. exists (String c p); reflexivity.
Qed.

Lemma dropBytes_suffix (n : nat) (s : string) : isSuffixOf (GoTime.dropBytes n s) s.
Proof.
  revert n; induction s as [|c s IH]; intros n; simpl.
  - apply isSuffixOf_refl.
  - destruct n as [|n]; [apply isSuffixOf_refl | apply isSuffixOf_String, IH].
Qed.

Lemma cutspace_suffix (s : string) : isSuffixOf (GoTime.cutspace s) s.
Proof.
  induction s as [|c s IH]; simpl.
  - apply isSuffixOf_refl.
  - destruct (GoTime.byteIs c " "); [apply isSuffixOf_String, IH | apply isSuffixOf_refl].
Qed.

Lemma skipFrom_suffix (prefix : string) :
  forall afterSpace value rest,
    GoTime.skipFrom afterSpace value prefix = Some rest -> isSuffixOf rest value.
Proof.
  induction prefix as [|p prefix IH]; intros afterSpace value rest; simpl.
  - intros H; injection H as <-; apply isSuffixOf_refl.
  - destruct (GoTime.byteIs p " ").
    + destruct afterSpace; [apply IH|].
      destruct value as [|v value]; [apply IH|].
      destruct (GoTime.byteIs v " ") eqn:Hv; [|discriminate].
      intros H; apply IH in H.
      apply (isSuffixOf_trans H).
      apply (cutspace_suffix (String v value)).
    + destruct value as [|v value]; [discriminate|].
      destruct (GoTime.byteIs v p); [|discriminate].
      intros H; apply isSuffixOf_String, (IH _ _ _ H).
Qed.

Lemma getnum_suffix (s : string) (fixed : bool) (n : Z) (rest : string) :
  GoTime.getnum s fixed = Some (n, rest) -> isSuffixOf rest s.
Proof.
  unfold GoTime.getnum.
  destruct s as [|a s]; [discriminate|].
  destruct (isDigit a); [|discriminate].
  destruct s as [|b s].
  - destruct fixed; [discriminate|].
    intros H; injection H as _ <-. apply isSuffixOf_String, isSuffixOf_refl.
  - destruct (isDigit b).
    + intros H; injection H as _ <-.
      apply isSuffixOf_String, isSuffixOf_String, isSuffixOf_refl.
    + destruct fixed; [discriminate|].
      intros H; injection H as _ <-. apply isSuffixOf_String, isSuffixOf_refl.
Qed.

(** Every layout element consumes a prefix of the value. *)
Lemma parseStd_suffix (s : GoTime.std) (layout value rest : string) (f f' : GoTime.fields) :
  GoTime.parseStd s layout value f = Some (rest, f') -> isSuffixOf rest value.
Proof.
  destruct s; unfold GoTime.parseStd; try discriminate.
  - destruct (_ || _); [discriminate|].
    destruct (GoTime.atoi _); [|discriminate].
    intros H; injection H as <- _; apply dropBytes_suffix.
  - destruct (GoTime.getnum value true) as [[m v]|] eqn:Hg; [|discriminate].
    destruct (_ || _); [discriminate|].
    intros H; injection H as <- _; apply (getnum_suffix _ _ Hg).
  - destruct (GoTime.getnum value true) as [[m v]|] eqn:Hg; [|discriminate].
    intros H; injection H as <- _; apply (getnum_suffix _ _ Hg).
  - destruct (GoTime.getnum value false) as [[m v]|] eqn:Hg; [|discriminate].
    destruct (_ || _); [discriminate|].
    intros H; injection H as <- _; apply (getnum_suffix _ _ Hg).
  - destruct (GoTime.getnum value true) as [[m v]|] eqn:Hg; [|discriminate].
    destruct (_ || _); [discriminate|].
    intros H; injection H as <- _; apply (getnum_suffix _ _ Hg).
  - destruct (GoTime.getnum value true) as [[m v]|] eqn:Hg; [|discriminate].
    apply getnum_suffix in Hg.
    destruct (_ || _); [discriminate|].
    destruct v as [|c v]; [intros H; injection H as <- _; exact Hg|].
    destruct (_ && _).
    + destruct (GoTime.nextStdChunk layout) as [[pre next] suf].
      destruct (GoTime.isFracSecond next); [intros H; injection H as <- _; exact Hg|].
      destruct (GoTime.parseNanoseconds _ _); [|discriminate].
      intros H; injection H as <- _.
      apply (isSuffixOf_trans (b := String c v)); [|exact Hg].
      apply isSuffixOf_String, dropBytes_suffix.
    + intros H; injection H as <- _; exact Hg.
  - destruct (_ <? _)%nat; [discriminate|].
    destruct (GoTime.parseNanoseconds _ _); [|discriminate].
    intros H; injection H as <- _; apply dropBytes_suffix.
  - destruct value as [|c value]; [discriminate|].
    destruct (GoTime.byteIs c "Z").
    + intros H; injection H as <- _; apply isSuffixOf_String, isSuffixOf_refl.
    + destruct (_ <? _)%nat; [discriminate|].
      destruct (negb _); [discriminate|].
      destruct (GoTime.getnum _ true) as [[hr ?]|]; [|discriminate].
      destruct (GoTime.getnum _ true) as [[mm ?]|]; [|discriminate].
      destruct (_ || _); [discriminate|].
      destruct (GoTime.byteIs c "+");
        [intros H; injection H as <- _; apply isSuffixOf_String, dropBytes_suffix|].
      destruct (GoTime.byteIs c "-"); [|discriminate].
      intros H; injection H as <- _; apply isSuffixOf_String, dropBytes_suffix.
Qed.

Lemma skip_Z_all (value : string) : GoTime.skip value "Z" = Some EmptyString -> value = "Z".
Proof.
  unfold GoTime.skip; simpl.
  destruct value as [|v value]; [discriminate|].
  change (GoTime.byteIs "Z" " ") with false; simpl.
  destruct (GoTime.byteIs v "Z") eqn:Hv; [|discriminate].
  apply Ascii.eqb_eq in Hv; subst v.
  intros H; injection H as ->; reflexivity.
Qed.

Lemma parseLoop_trailing_Z (fuel : nat) :
  forall layout value f f',
    endsWithLiteralZ fuel layout ->
    GoTime.parseLoop fuel layout value f = Some f' ->
    isSuffixOf "Z" value.
Proof.
  induction fuel as [|fuel IH]; intros layout value f f'; simpl; [intros []|].
  destruct (GoTime.nextStdChunk layout) as [[prefix s] suffix].
  destruct (GoTime.skip value prefix) as [v1|] eqn:Hskip;
    [|destruct s; intros _ H; discriminate H].
  assert (Hsuf : isSuffixOf v1 value) by (apply (skipFrom_suffix _ _ _ Hskip)).
  destruct s;
    try (intros Hz H;
         destruct (GoTime.parseStd _ suffix v1 f) as [[v2 f2]|] eqn:Hstd; [|discriminate H];
         apply parseStd_suffix in Hstd;
         apply (isSuffixOf_trans (IH _ _ _ _ Hz H));
         apply (isSuffixOf_trans Hstd Hsuf)).
  intros -> H. destruct v1; [|discriminate H].
  rewrite (skip_Z_all _ Hskip); apply isSuffixOf_refl.
Qed.

Lemma Parse_trailing_Z (layout value : string) (t : Time) :
  endsWithLiteralZ (S (String.length layout)) layout ->
  GoTime.Parse layout value = Some t ->
  isSuffixOf "Z" value.
Proof.
  unfold GoTime.Parse; intros Hz.
  destruct (GoTime.parseLoop _ layout value GoTime.initFields) as [f|] eqn:H; [|discriminate].
  intros _; apply (parseLoop_trailing_Z _ _ _ _ Hz H).
Qed.

Lemma parseStd_zone_unchanged (s : GoTime.std) (layout value rest : string)
  (f f' : GoTime.fields) :
  s <> GoTime.stdISO8601ColonTZ ->
  GoTime.parseStd s layout value f = Some (rest, f') ->
  GoTime.zoneOffset f' = GoTime.zoneOffset f.
Proof.
  intros Hs; destruct s; unfold GoTime.parseStd; try discriminate;
    try (contradiction Hs; reflexivity).
  - destruct (_ || _); [discriminate|].
    destruct (GoTime.atoi _); [|discriminate].
    intros H; injection H as _ <-; reflexivity.
  - destruct (GoTime.getnum value true) as [[m v]|]; [|discriminate].
    destruct (_ || _); [discriminate|].
    intros H; injection H as _ <-; reflexivity.
  - destruct (GoTime.getnum value true) as [[m v]|]; [|discriminate].
    intros H; injection H as _ <-; reflexivity.
  - destruct (GoTime.getnum value false) as [[m v]|]; [|discriminate].
    destruct (_ || _); [discriminate|].
    intros H; injection H as _ <-; reflexivity.
  - destruct (GoTime.getnum value true) as [[m v]|]; [|discriminate].
    destruct (_ || _); [discriminate|].
    intros H; injection H as _ <-; reflexivity.
  - destruct (GoTime.getnum value true) as [[m v]|]; [|discriminate].
    destruct (_ || _); [discriminate|].
    destruct v as [|c v]; [intros H; injection H as _ <-; reflexivity|].
    destruct (_ && _).
    + destruct (GoTime.nextStdChunk layout) as [[pre next] suf].
      destruct (GoTime.isFracSecond next); [intros H; injection H as _ <-; reflexivity|].
      destruct (GoTime.parseNanoseconds _ _); [|discriminate].
      intros H; injection H as _ <-; reflexivity.
    + intros H; injection H as _ <-; reflexivity.
  - destruct (_ <? _)%nat; [discriminate|].
    destruct (GoTime.parseNanoseconds _ _); [|discriminate].
    intros H; injection H as _ <-; reflexivity.
Qed.

Lemma parseLoop_noZone (fuel : nat) :
  forall layout value f f',
    noZoneElement fuel layout ->
    GoTime.parseLoop fuel layout value f = Some f' ->
    GoTime.zoneOffset f' = GoTime.zoneOffset f.
Proof.
  induction fuel as [|fuel IH]; intros layout value f f'; simpl; [discriminate|].
  destruct (GoTime.nextStdChunk layout) as [[prefix s] suffix].
  destruct (GoTime.skip value prefix) as [v1|];
    [|destruct s; intros _ H; discriminate H].
  destruct s;
    try (intros Hz H;
         destruct (GoTime.parseStd _ suffix v1 f) as [[v2 f2]|] eqn:Hstd; [|discriminate H];
         apply parseStd_zone_unchanged in Hstd; [|discriminate];
         rewrite <- Hstd; apply (IH _ _ _ _ Hz H)).
  - intros _ H. destruct v1; [injection H as <-; reflexivity | discriminate H].
  - intros [].
Qed.

(** A value parsed under a layout without zone element is a UTC time. *)
Lemma Parse_noZone_UTC (layout value : string) (t : Time) :
  noZoneElement (S (String.length layout)) layout ->
  GoTime.Parse layout value = Some t ->
  loc t = UTC.
Proof.
  unfold GoTime.Parse; intros Hz.
  destruct (GoTime.parseLoop _ layout value GoTime.initFields) as [f|] eqn:H; [|discriminate].
  apply (parseLoop_noZone _ _ _ _ Hz) in H.
  destruct (_ || _); [discriminate|].
  destruct (GoTime.zUTC f); [intros E; injection E as <-; reflexivity|].
  rewrite H; simpl.
  intros E; injection E as <-; reflexivity.
Qed.

(** C4, refuted as stated: a zone-less [YYYY-MM-DDTHH:MM] value would be
    read by the second layout of the specification's list, but no layout of
    the source accepts it; with a trailing [Z] it is the other way round. *)
Lemma zoneless_minutes_rejected :
  parseWith GoTime.Parse spec_layouts "2022-01-01T10:00"
  = Ok (mkUTCTime (mkTime 1641031200 0 UTC))
  /\ parseToUTCTime GoTime.Parse "2022-01-01T10:00"
     = Err "invalid date format: 2022-01-01T10:00"
  /\ parseWith GoTime.Parse spec_layouts "2022-01-01T10:00Z"
     = Err "invalid date format: 2022-01-01T10:00Z"
  /\ parseToUTCTime GoTime.Parse "2022-01-01T10:00Z"
     = Ok (mkUTCTime (mkTime 1641031200 0 UTC)).
Proof.
  repeat split; vm_compute; reflexivity.
Qed.

(** ** A sibling that does not exist *)

Lemma invalid_Value_never_parses :
  forall layout, In layout layouts -> GoTime.Parse layout "<invalid Value>" = None.
Proof.
  intros layout Hin; simpl in Hin.
  repeat (destruct Hin as [<- | Hin]; [vm_compute; reflexivity|]).
  destruct Hin.
Qed.

(** C10.  When the rule's parameter names no field of the enclosing record,
    the lookup yields the zero Value, whose string form ["<invalid Value>"]
    parses under no layout: the predicate returns false, without panic,
    whatever the annotated value. *)
Theorem validateDatetimeGTE_missing_sibling
  (fl : FieldLevel) (fs : list (StructField * Value)) :
  parentRecord (fl_Parent fl) fs ->
  lookupFieldValue fs (fl_Param fl) = None ->
  validateDatetimeGTE GoTime.Parse fl = Ret false
  /\ Value_String (lookupFieldValue fs (fl_Param fl)) = "<invalid Value>"
  /\ parseToUTCTime GoTime.Parse "<invalid Value>" = Err "invalid date format: <invalid Value>".
Proof.
  intros Hparent Hmissing.
  assert (Herr : parseToUTCTime GoTime.Parse "<invalid Value>"
                 = Err "invalid date format: <invalid Value>").
  { apply (proj1 (parseWith_all_fail GoTime.Parse layouts "<invalid Value>")).
    exact invalid_Value_never_parses. }
  split; [|split; [rewrite Hmissing; reflexivity | exact Herr]].
  rewrite (validateDatetimeGTE_record GoTime.Parse fl Hparent), Hmissing.
  change (Value_String None) with "<invalid Value>". rewrite Herr.
  destruct (parseToUTCTime GoTime.Parse (Value_String (fl_Field fl))); reflexivity.
Qed.

(** ** The results on the records of the package's tests *)

Lemma Validate_slice_first_failure_witness :
  Validate testValidator
    (Some (VSlice requiredModelType [requiredModel "xpto"; requiredModel ""; requiredModel "a"]))
  = Ret (error_Problem (Some isRequiredFieldProblemJSON)).
Proof.
  assert (Hne : [requiredModel "xpto"; requiredModel ""; requiredModel "a"] <> [])
    by discriminate.
  apply (proj1 (Validate_slice_first_failure testValidator requiredModelType Hne))
    with (i := 1%nat) (x := requiredModel "").
  - reflexivity.
  - vm_compute; reflexivity.
  - intros j y Hj Hy.
    destruct j as [|j]; [|lia].
    injection Hy as <-. vm_compute; reflexivity.
Defined.

Lemma validateDatetimeGTE_iff_witness :
  validateDatetimeGTE GoTime.Parse
    (datePairLevel "Field1" "2022-01-01T00:00:00+01:00" "2022-05-01T00:00:00+01:00") = Ret true
  /\ validateDatetimeGTE GoTime.Parse
       (datePairLevel "Field1" "2022-05-01T00:00:00+01:00" "2022-01-01T00:00:00+01:00")
     = Ret false.
Proof.
  assert (Hjan : firstParse GoTime.Parse "2022-01-01T00:00:00+01:00"
                   (mkTime 1640991600 0 (FixedZone 3600))).
  { exists 0%nat, defaultFormat; split; [reflexivity | split].
    - vm_compute; reflexivity.
    - intros j l Hj; lia. }
  assert (Hmay : firstParse GoTime.Parse "2022-05-01T00:00:00+01:00"
                   (mkTime 1651359600 0 (FixedZone 3600))).
  { exists 0%nat, defaultFormat; split; [reflexivity | split].
    - vm_compute; reflexivity.
    - intros j l Hj; lia. }
  split.
  - assert (Hparent : parentRecord
                        (fl_Parent (datePairLevel "Field1" "2022-01-01T00:00:00+01:00"
                                      "2022-05-01T00:00:00+01:00"))
                        (datePairFields "Field1" "2022-01-01T00:00:00+01:00"
                           "2022-05-01T00:00:00+01:00"))
      by (left; exists EmptyString; reflexivity).
    apply (proj2 (proj1 (validateDatetimeGTE_iff GoTime.Parse _ Hparent))).
    exists (mkTime 1651359600 0 (FixedZone 3600)), (mkTime 1640991600 0 (FixedZone 3600)).
    split; [exact Hmay | split; [exact Hjan|]].
    left; simpl; lia.
  - assert (Hparent : parentRecord
                        (fl_Parent (datePairLevel "Field1" "2022-05-01T00:00:00+01:00"
                                      "2022-01-01T00:00:00+01:00"))
                        (datePairFields "Field1" "2022-05-01T00:00:00+01:00"
                           "2022-01-01T00:00:00+01:00"))
      by (left; exists EmptyString; reflexivity).
    apply (proj1 (proj2 (proj2 (proj2 (validateDatetimeGTE_iff GoTime.Parse _ Hparent))))
             (mkTime 1640991600 0 (FixedZone 3600)) (mkTime 1651359600 0 (FixedZone 3600))
             Hjan Hmay).
    unfold Time_le; simpl; lia.
Defined.

Lemma validateDatetimeGTE_missing_sibling_witness :
  validateDatetimeGTE GoTime.Parse (datePairLevel "field1" "2022-05-01" "2022-01-01") = Ret false.
Proof.
  assert (Hparent : parentRecord (fl_Parent (datePairLevel "field1" "2022-05-01" "2022-01-01"))
                      (datePairFields "field1" "2022-05-01" "2022-01-01"))
    by (left; exists EmptyString; reflexivity).
  apply (proj1 (validateDatetimeGTE_missing_sibling _ Hparent eq_refl)).
Defined.

(** ** The package's tests, run on the model *)

Example test_CannotBeEmptyArray :
  Validate testValidator (Some (VSlice (TStruct EmptyString []) []))
  = Ret (error_Problem (Some cannotBeEmptyArrayProblemJSON)).
Proof.
  reflexivity.
Qed.

Example test_success_struct_defined_before :
  Validate testValidator (Some (requiredModel ""))
  = Ret (error_Problem (Some isRequiredFieldProblemJSON)).
Proof.
  vm_compute; reflexivity.
Qed.

Example test_Success :
  Validate testValidator
    (Some (VSlice requiredModelType [requiredModel "xpto"; requiredModel "xpto"]))
  = Ret error_nil.
Proof.
  vm_compute; reflexivity.
Qed.

Example test_error_testing_datetime_gte_without_json_tag :
  Validate testValidator
    (Some (VSlice (TStruct EmptyString [])
             [VStruct EmptyString (datePairFields "Field1" "2022-05-01" "2022-01-01")]))
  = Ret (error_Problem
           (Some [("status", PInt 400);
                  ("invalid_params",
                   PInvalidParams
                     [mkInvalidParam "field2" "field2 must be greater than or equal Field1"])])).
Proof.
  vm_compute; reflexivity.
Qed.

Example test_error_datetime :
  Validate testValidator
    (Some (VSlice (TStruct EmptyString [])
             [VStruct EmptyString (datePairFields "Field1" "a" "a")]))
  = Ret (error_Problem
           (Some [("status", PInt 400);
                  ("invalid_params",
                   PInvalidParams
                     [mkInvalidParam "field2" "field2 must be greater than or equal Field1"])])).
Proof.
  vm_compute; reflexivity.
Qed.

Example test_success_string_datetime_greater_than_or_equal :
  Validate testValidator
    (Some (VSlice (TStruct EmptyString [])
             [VStruct EmptyString (datePairFields "Field1" "2022-01-01" "2022-01-01")]))
  = Ret error_nil.
Proof.
  vm_compute; reflexivity.
Qed.

Example test_iso_dates :
  map (fun s => validateISO8601Date GoTime.Parse (stringField s))
    ["2022-12-12"; "2022-12-99"; "2022-44-01"; "000-07-01"]
  = [true; false; false; false].
Proof.
  vm_compute; reflexivity.
Qed.

Example test_zip_codes :
  map (fun s => validateBrZipCode (stringField s)) ["00000-000"; "00000000"; "a"]
  = [true; true; false].
Proof.
  vm_compute; reflexivity.
Qed.

(** * Further properties of the package *)

(** ** Splitting and joining *)

Lemma strings_Split_nonempty (s : string) (sep : ascii) : strings_Split s sep <> [].
Proof.
  destruct s as [|c s]; simpl; [discriminate|].
  destruct (Ascii.eqb c sep); [discriminate|].
  destruct (strings_Split s sep); discriminate.
Qed.

Lemma strings_Split_noByte (sep : ascii) (s : string) :
  noByte sep s = true -> strings_Split s sep = [s].
Proof.
  induction s as [|c s IH]; simpl; [reflexivity|].
  intros H; apply andb_true_iff in H; destruct H as [Hc Hs].
  apply negb_true_iff in Hc; rewrite Hc, (IH Hs); reflexivity.
Qed.

Lemma strings_Split_app (sep : ascii) (a b : string) :
  noByte sep a = true ->
  strings_Split (a ++ String sep b) sep = a :: strings_Split b sep.
Proof.
  induction a as [|c a IH]; simpl.
  - intros _; rewrite Ascii.eqb_refl; reflexivity.
  - intros H; apply andb_true_iff in H; destruct H as [Hc Ha].
    apply negb_true_iff in Hc; rewrite Hc, (IH Ha); reflexivity.
Qed.

Lemma strings_Join_cons (a : string) (l : list string) (sep : string) :
  l <> [] -> strings_Join (a :: l) sep = (a ++ sep ++ strings_Join l sep)%string.
Proof.
  destruct l; [intros H; contradiction H; reflexivity | reflexivity].
Qed.

Lemma strings_Join_String (c : ascii) (hd : string) (tl : list string) (sep : string) :
  strings_Join (String c hd :: tl) sep = String c (strings_Join (hd :: tl) sep).
Proof.
  destruct tl; reflexivity.
Qed.

(** Joining the parts of a split with the separator gives the string back. *)
Lemma strings_Join_Split (sep : ascii) (s : string) :
  strings_Join (strings_Split s sep) (String sep EmptyString) = s.
Proof.
  induction s as [|c s IH]; simpl; [reflexivity|].
  destruct (Ascii.eqb c sep) eqn:Hc.
  - apply Ascii.eqb_eq in Hc; subst c.
    rewrite strings_Join_cons by apply strings_Split_nonempty.
    rewrite IH; reflexivity.
  - destruct (strings_Split s sep) as [|hd tl] eqn:Hs.
    + contradiction (strings_Split_nonempty s sep Hs).
    + rewrite strings_Join_String, IH; reflexivity.
Qed.

Lemma firstOf_Split_noByte (sep : ascii) (s : string) :
  noByte sep (firstOf (strings_Split s sep)) = true.
Proof.
  induction s as [|c s IH]; simpl; [reflexivity|].
  destruct (Ascii.eqb c sep) eqn:Hc; [reflexivity|].
  destruct (strings_Split s sep) as [|hd tl]; simpl in *; rewrite Hc; [reflexivity | exact IH].
Qed.

(** ** The postal-code rule *)

Lemma matches_repeat_digits (n : nat) :
  forall s, matches (RRepeat n RDigit) s <-> (String.length s = n /\ allDigits s = true).
Proof.
  induction n as [|n IH]; intros s; simpl.
  - split.
    + intros H; inversion H; split; reflexivity.
    + intros [H _]. destruct s; [constructor | discriminate H].
  - split.
    + intros H.
      inversion H as [ | | ? ? s1 s2 Ha Hb | | | | ]; subst.
      apply matches_RClass in Ha; destruct Ha as [c [-> Hc]].
      apply IH in Hb; destruct Hb as [Hlen Hd].
      simpl; rewrite Hlen, Hc, Hd; split; reflexivity.
    + intros [Hlen Hd]. destruct s as [|c s]; [discriminate Hlen|].
      simpl in Hlen, Hd. apply andb_true_iff in Hd; destruct Hd as [Hc Hd].
      apply (MCat (s1 := String c EmptyString)).
      * constructor; exact Hc.
      * apply IH; split; [lia | exact Hd].
Qed.

Lemma matches_zip (s : string) : matches (body regexBrZipCode) s <-> brZipCode s.
Proof.
  unfold brZipCode; simpl body; split.
  - intros H.
    inversion H as [ | | ? ? a t Ha Ht | | | | ]; subst.
    inversion Ht as [ | | ? ? sep b Hsep Hb | | | | ]; subst.
    apply (proj1 (matches_repeat_digits 5 a)) in Ha; destruct Ha as [Hla Hda].
    apply (proj1 (matches_repeat_digits 3 b)) in Hb; destruct Hb as [Hlb Hdb].
    exists a, sep, b; repeat split; try assumption.
    inversion Hsep as [ | | | ? ? ? Hc | ? ? ? Hc | | ]; subst.
    + right; apply matches_RChar in Hc; exact Hc.
    + left; inversion Hc; reflexivity.
  - intros [a [sep [b [-> [Hla [Hda [Hsep [Hlb Hdb]]]]]]]].
    apply MCat; [apply (proj2 (matches_repeat_digits 5 a)); split; assumption|].
    apply MCat; [|apply (proj2 (matches_repeat_digits 3 b)); split; assumption].
    destruct Hsep as [-> | ->].
    + apply MAltR; constructor.
    + apply MAltL, matches_RChar; reflexivity.
Qed.

Lemma length_append (a b : string) :
  String.length (a ++ b) = (String.length a + String.length b)%nat.
Proof.
  induction a as [|c a IH]; simpl; [reflexivity | rewrite IH; reflexivity].
Qed.

(** X1.  On a string value the postal-code rule passes exactly when the
    value is five digits, an optional hyphen and three digits; an accepted
    value is therefore 8 or 9 bytes long. *)
Theorem validateBrZipCode_iff (s param : string) (parent : rvalue) :
  (validateBrZipCode (mkFieldLevel (Some (VString s)) param parent) = true <-> brZipCode s)
  /\ (validateBrZipCode (mkFieldLevel (Some (VString s)) param parent) = true ->
      String.length s = 8%nat \/ String.length s = 9%nat).
Proof.
  assert (Hiff : validateBrZipCode (mkFieldLevel (Some (VString s)) param parent) = true
                 <-> brZipCode s).
  { unfold validateBrZipCode; simpl fl_Field; simpl Value_String.
    change regexBrZipCode with (mkRegexp true (body regexBrZipCode) true).
    rewrite MatchString_anchored. apply matches_zip. }
  split; [exact Hiff|].
  intros H; apply Hiff in H.
  destruct H as [a [sep [b [-> [Hla [_ [Hsep [Hlb _]]]]]]]].
  rewrite !length_append, Hla, Hlb.
  destruct Hsep as [-> | ->]; simpl; [left | right]; reflexivity.
Qed.

(** ** The name of a violation *)

(** X2.  The reported name drops exactly the first segment of a dotted
    namespace, whatever follows it, and a namespace without dot is reported
    as it is. *)
Theorem translateName_strips_root (e : FieldError) :
  (forall root rest,
      Namespace e = (root ++ "." ++ rest)%string -> noByte dot root = true ->
      translateName e = rest)
  /\ (noByte dot (Namespace e) = true -> translateName e = Namespace e).
Proof.
  unfold translateName; split.
  - intros root rest Hns Hroot.
    rewrite Hns. change ("." ++ rest)%string with (String dot rest).
    rewrite (strings_Split_app dot root rest Hroot).
    assert (Hlen : (1 <? List.length (root :: strings_Split rest dot))%nat = true).
    { destruct (strings_Split rest dot) as [|hd tl] eqn:Hs;
        [contradiction (strings_Split_nonempty rest dot Hs) | reflexivity]. }
    rewrite Hlen. cbn [tl]. apply (strings_Join_Split dot rest).
  - intros H. rewrite (strings_Split_noByte dot _ H); reflexivity.
Qed.

Lemma translateName_strips_root_witness :
  translateName (mkFieldError "Order.items[0].price" "price" "required" "") = "items[0].price"
  /\ translateName (mkFieldError "price" "price" "required" "") = "price".
Proof.
  split.
  - apply (proj1 (translateName_strips_root
                    (mkFieldError "Order.items[0].price" "price" "required" ""))
             "Order" "items[0].price"); reflexivity.
  - apply (proj2 (translateName_strips_root (mkFieldError "price" "price" "required" "")));
      reflexivity.
Defined.

(** ** The result of [validate] *)

Lemma getJsonTagNameFromPropertyName_record
  (param : string) (body : any) (fs : list StructField) :
  recordBody body fs ->
  getJsonTagNameFromPropertyName param body
  = Ret (map (resolvedName fs) (strings_Split param space)).
Proof.
  intros [[n [vs [-> <-]]] | [n [target ->]]].
  - apply getJsonTagNameFromPropertyName_struct.
  - apply getJsonTagNameFromPropertyName_ptr.
Qed.

Lemma translateReason_record
  (gv : genericValidator) (body : any) (fs : list StructField) (e : FieldError) :
  recordBody body fs -> exists r, translateReason gv body e = Ret r.
Proof.
  intros Hrec; unfold translateReason.
  rewrite (getJsonTagNameFromPropertyName_record _ Hrec).
  repeat match goal with
         | |- context [if ?b then _ else _] => destruct b
         end; eexists; reflexivity.
Qed.

Lemma mapM_Forall2 (A B : Type) (f : A -> outcome B) (l : list A) :
  (forall a, In a l -> exists b, f a = Ret b) ->
  exists l', mapM f l = Ret l' /\ Forall2 (fun a b => f a = Ret b) l l'.
Proof.
  induction l as [|a l IH]; intros H; simpl.
  - exists []; split; [reflexivity | constructor].
  - destruct (H a (or_introl eq_refl)) as [b Hb].
    destruct IH as [l' [Hl' HF]]; [intros x Hx; apply H; right; exact Hx|].
    exists (b :: l'); rewrite Hb, Hl'; split; [reflexivity | constructor; assumption].
Qed.

(** X3.  On a record (or a pointer to a record type) for which the engine
    reports violations, [validate] never panics: it returns the problem with
    status 400 and one invalid parameter per violation, in the order of the
    violations, each with the violation's translated name and reason; and
    [Validate] returns that problem as its error. *)
Theorem validate_record_violations
  (gv : genericValidator) (body : any) (fs : list StructField) (errs : list FieldError) :
  recordBody body fs ->
  tagValidator gv body = Ret (ValidationErrors errs) ->
  errs <> [] ->
  exists invalidParams,
    validate gv body = Ret (Some (invalidParamsProblem invalidParams))
    /\ Validate gv body = Ret (error_Problem (Some (invalidParamsProblem invalidParams)))
    /\ List.length invalidParams = List.length errs
    /\ map Name invalidParams = map translateName errs
    /\ Forall2 (fun e ip => translateReason gv body e = Ret (Reason ip)) errs invalidParams.
Proof.
  intros Hrec Hengine Hne.
  assert (Hall : forall e, In e errs -> exists ip, translate gv body e = Ret ip).
  { intros e _. destruct (translateReason_record gv e Hrec) as [r Hr].
    exists (mkInvalidParam (translateName e) r). unfold translate; rewrite Hr; reflexivity. }
  destruct (mapM_Forall2 (translate gv body) errs Hall) as [l [Hl HF]].
  assert (Hv : validate gv body = Ret (Some (invalidParamsProblem l))).
  { unfold validate; rewrite Hengine; simpl.
    destruct errs as [|e errs]; [contradiction Hne; reflexivity|].
    cbn [List.length Nat.ltb Nat.leb]. rewrite Hl; reflexivity. }
  exists l; split; [exact Hv | split; [|split; [|split]]].
  - destruct Hrec as [[n [vs [-> _]]] | [n [target ->]]];
      unfold Validate; simpl; rewrite Hv; reflexivity.
  - symmetry; apply (Forall2_length HF).
  - clear Hv Hl Hall Hne Hengine. induction HF as [|e ip errs l He _ IH]; simpl; [reflexivity|].
    rewrite IH. unfold translate in He.
    destruct (translateReason gv body e); [|discriminate He].
    injection He as <-; reflexivity.
  - clear Hv Hl Hall Hne Hengine. induction HF as [|e ip errs l He _ IH]; constructor;
      [|exact IH].
    unfold translate in He.
    destruct (translateReason gv body e); [|discriminate He].
    injection He as <-; reflexivity.
Qed.

(** X4.  [validate] reports no problem exactly when the engine reports no
    violation (nil, or an empty list of violations); with at least one
    violation the result is a problem or a panic, never the nil problem. *)
Theorem validate_None_iff (gv : genericValidator) (body : any) :
  validate gv body = Ret None <->
  (tagValidator gv body = Ret StructOk \/ tagValidator gv body = Ret (ValidationErrors [])).
Proof.
  unfold validate; split.
  - intros H. apply bind_Ret_inv in H; destruct H as [err [Herr H]].
    destruct err as [|errs|]; [left; exact Herr | | discriminate H].
    destruct errs as [|e errs]; [right; exact Herr|].
    cbn [List.length Nat.ltb Nat.leb] in H.
    apply bind_Ret_inv in H; destruct H as [l [_ H]]; discriminate H.
  - intros [H | H]; rewrite H; reflexivity.
Qed.

(** X5.  For a struct or a pointer the pointer returned by [validate] is
    handed back as the error: when the record is valid, [Validate] returns an
    error value that holds the nil pointer, which is not the nil error.  On a
    slice the result is the nil error or holds a non-nil problem. *)
Theorem Validate_struct_typed_nil (gv : genericValidator) :
  (forall n vs,
      validate gv (Some (VStruct n vs)) = Ret None ->
      Validate gv (Some (VStruct n vs)) = Ret (error_Problem None))
  /\ (forall elem target,
        validate gv (Some (VPtr elem target)) = Ret None ->
        Validate gv (Some (VPtr elem target)) = Ret (error_Problem None))
  /\ error_Problem None <> error_nil
  /\ (forall elem xs e,
        Validate gv (Some (VSlice elem xs)) = Ret e -> e <> error_Problem None).
Proof.
  split; [|split; [|split]].
  - intros n vs H; unfold Validate; simpl; rewrite H; reflexivity.
  - intros elem target H; unfold Validate; simpl; rewrite H; reflexivity.
  - discriminate.
  - intros elem xs e. rewrite Validate_slice.
    destruct xs as [|a xs]; [intros H; injection H as <-; discriminate|].
    generalize (a :: xs); clear a xs; intros xs.
    induction xs as [|x xs IH]; simpl.
    + intros H; injection H as <-; discriminate.
    + destruct (validate gv (Value_Interface x)) as [[p|]|m]; simpl.
      * intros H; injection H as <-; discriminate.
      * exact IH.
      * discriminate.
Qed.

(** X6.  When the engine answers with an [InvalidValidationError] (its
    answer for what is not a struct, a nil pointer for one), the type
    assertion of [validate] panics, and so does [Validate] on such a pointer
    and on a slice that starts with such an element. *)
Theorem validate_InvalidValidationError_panics (gv : genericValidator) (body : any) :
  tagValidator gv body = Ret InvalidValidationError ->
  validate gv body = Panic typeAssertionPanic
  /\ (forall elem target,
        body = Some (VPtr elem target) -> Validate gv body = Panic typeAssertionPanic)
  /\ (forall x elem rest,
        body = Some x -> Validate gv (Some (VSlice elem (x :: rest))) = Panic typeAssertionPanic).
Proof.
  intros H.
  assert (Hv : validate gv body = Panic typeAssertionPanic)
    by (unfold validate; rewrite H; reflexivity).
  split; [exact Hv | split].
  - intros elem target Hb; rewrite Hb in Hv |- *.
    unfold Validate; simpl; rewrite Hv; reflexivity.
  - intros x elem rest Hb; rewrite Hb in Hv.
    rewrite Validate_slice; simpl; unfold Value_Interface; rewrite Hv; reflexivity.
Qed.

(** ** Resolution of sibling names *)

Lemma noByte_Split (c sep : ascii) (s : string) :
  noByte c s = true -> forall x, In x (strings_Split s sep) -> noByte c x = true.
Proof.
  induction s as [|a s IH]; simpl.
  - intros _ x [<- | []]; reflexivity.
  - intros H; apply andb_true_iff in H; destruct H as [Ha Hs].
    specialize (IH Hs).
    destruct (Ascii.eqb a sep).
    + intros x [<- | Hx]; [reflexivity | apply IH, Hx].
    + destruct (strings_Split s sep) as [|hd tl].
      * intros x [<- | []]; simpl; rewrite Ha; reflexivity.
      * intros x [<- | Hx].
        -- simpl; rewrite Ha; apply IH; left; reflexivity.
        -- apply IH; right; exact Hx.
Qed.

Lemma firstOf_Split_id (sep : ascii) (s : string) :
  noByte sep s = true -> firstOf (strings_Split s sep) = s.
Proof.
  intros H; rewrite (strings_Split_noByte sep s H); reflexivity.
Qed.

Lemma resolvedName_missing (fs : list StructField) (field : string) :
  lookupField fs field = None -> noByte comma field = true -> resolvedName fs field = field.
Proof.
  intros Hmiss Hc; unfold resolvedName, fieldOrZero, pickedTag; rewrite Hmiss; simpl.
  apply firstOf_Split_id, Hc.
Qed.

Lemma map_id_on (A : Type) (f : A -> A) (l : list A) :
  (forall x, In x l -> f x = x) -> map f l = l.
Proof.
  induction l as [|a l IH]; intros H; simpl; [reflexivity|].
  rewrite (H a (or_introl eq_refl)), IH; [reflexivity|].
  intros x Hx; apply H; right; exact Hx.
Qed.

(** X7.  Resolution degrades to the raw identifiers: when none of the
    space-separated identifiers of the parameter is a field of the record,
    the resolved names are the identifiers themselves, in order, and nothing
    panics. *)
Theorem getJsonTagNameFromPropertyName_missing_fields
  (param : string) (body : any) (fs : list StructField) :
  recordBody body fs ->
  noByte comma param = true ->
  (forall field, In field (strings_Split param space) -> lookupField fs field = None) ->
  getJsonTagNameFromPropertyName param body = Ret (strings_Split param space).
Proof.
  intros Hrec Hcomma Hmiss.
  rewrite (getJsonTagNameFromPropertyName_record _ Hrec).
  f_equal; apply map_id_on; intros field Hin.
  apply resolvedName_missing; [apply Hmiss, Hin | apply (@noByte_Split comma space param Hcomma field Hin)].
Qed.

(** X8.  A non-empty [json] tag decides the name, and only its part before
    the first comma counts: [json:"name,omitempty"] resolves to [name], and a
    tag that starts with the comma resolves to the empty name, the other tags
    not being consulted. *)
Theorem jsonTagName_json_options
  (n : string) (fs : list StructField) (field : string) (f : StructField)
  (name opts : string) :
  lookupField fs field = Some f ->
  noByte comma name = true ->
  (StructTag_Get (sf_Tag f) "json" = (name ++ "," ++ opts)%string ->
   jsonTagName (Some (TStruct n fs)) field = Ret name
   /\ jsonTagName (Some (TPtr (TStruct n fs))) field = Ret name)
  /\ (StructTag_Get (sf_Tag f) "json" = name -> name <> EmptyString ->
      jsonTagName (Some (TStruct n fs)) field = Ret name
      /\ jsonTagName (Some (TPtr (TStruct n fs))) field = Ret name).
Proof.
  intros Hf Hname.
  rewrite jsonTagName_struct, jsonTagName_ptr_struct.
  unfold fieldOrZero, pickedTag; rewrite Hf; split.
  - intros Hjson; rewrite Hjson.
    assert (Hne : String.eqb (name ++ "," ++ opts) "" = false)
      by (destruct name; reflexivity).
    rewrite Hne. change ("," ++ opts)%string with (String comma opts).
    rewrite (strings_Split_app comma name opts Hname); split; reflexivity.
  - intros Hjson Hne; rewrite Hjson.
    apply String.eqb_neq in Hne; rewrite Hne.
    rewrite (firstOf_Split_id comma name Hname); split; reflexivity.
Qed.

(** X9.  The sources are consulted in the order [json], [param], [query],
    identifier, and the first non-empty one gives the name: with an empty
    [json] tag a non-empty [param] tag wins, with both empty a non-empty
    [query] tag wins, and with all three empty the identifier is the name. *)
Theorem jsonTagName_priority
  (n : string) (fs : list StructField) (field : string) (f : StructField) :
  lookupField fs field = Some f ->
  StructTag_Get (sf_Tag f) "json" = EmptyString ->
  (forall p, StructTag_Get (sf_Tag f) "param" = p -> p <> EmptyString ->
             noByte comma p = true ->
             jsonTagName (Some (TStruct n fs)) field = Ret p)
  /\ (forall q, StructTag_Get (sf_Tag f) "param" = EmptyString ->
                StructTag_Get (sf_Tag f) "query" = q -> q <> EmptyString ->
                noByte comma q = true ->
                jsonTagName (Some (TStruct n fs)) field = Ret q)
  /\ (StructTag_Get (sf_Tag f) "param" = EmptyString ->
      StructTag_Get (sf_Tag f) "query" = EmptyString ->
      noByte comma field = true ->
      jsonTagName (Some (TStruct n fs)) field = Ret field).
Proof.
  intros Hf Hjson.
  rewrite jsonTagName_struct.
  unfold fieldOrZero, pickedTag; rewrite Hf, Hjson; simpl.
  split; [|split].
  - intros p Hp Hne Hc; rewrite Hp.
    apply String.eqb_neq in Hne; rewrite Hne, (firstOf_Split_id comma p Hc); reflexivity.
  - intros q Hp Hq Hne Hc; rewrite Hp, Hq; simpl.
    apply String.eqb_neq in Hne; rewrite Hne, (firstOf_Split_id comma q Hc); reflexivity.
  - intros Hp Hq Hc; rewrite Hp, Hq; simpl.
    rewrite (firstOf_Split_id comma field Hc); reflexivity.
Qed.

(** ** The reasons of the translated violations *)

Lemma firstOf_map (g : string -> string) (l : list string) :
  l <> [] -> firstOf (map g l) = g (firstOf l).
Proof.
  destruct l; [intros H; contradiction H; reflexivity | reflexivity].
Qed.

(** X10.  On a record, a [required_with] violation is reported as
    "<field> is required if one of these fields are filled: " followed by
    the resolved names of the identifiers of the parameter, separated by
    ", ". *)
Theorem required_with_reason
  (gv : genericValidator) (body : any) (fs : list StructField) (e : FieldError) :
  Tag e = "required_with" ->
  recordBody body fs ->
  translateReason gv body e =
  Ret (Field e ++ " is required if one of these fields are filled: "
         ++ strings_Join (map (resolvedName fs) (strings_Split (Param e) space)) ", ")%string.
Proof.
  intros Htag Hrec; unfold translateReason.
  rewrite (getJsonTagNameFromPropertyName_record _ Hrec), Htag; reflexivity.
Qed.

(** X11.  On a record, a violation of the date rule is reported as
    "<field> must be greater than or equal <sibling>", where the sibling is
    the resolved name of the first identifier of the parameter: its [json]
    name when it has one, the identifier itself when the record has no such
    field. *)
Theorem datetimeGte_reason
  (gv : genericValidator) (body : any) (fs : list StructField) (e : FieldError) :
  Tag e = datetimeGteTag ->
  recordBody body fs ->
  translateReason gv body e =
  Ret (Field e ++ " must be greater than or equal "
         ++ resolvedName fs (firstOf (strings_Split (Param e) space)))%string
  /\ (lookupField fs (Param e) = None -> noByte space (Param e) = true ->
      noByte comma (Param e) = true ->
      translateReason gv body e =
      Ret (Field e ++ " must be greater than or equal " ++ Param e)%string).
Proof.
  intros Htag Hrec.
  assert (H : translateReason gv body e =
              Ret (Field e ++ " must be greater than or equal "
                     ++ resolvedName fs (firstOf (strings_Split (Param e) space)))%string).
  { unfold translateReason.
    rewrite (getJsonTagNameFromPropertyName_record _ Hrec), Htag.
    cbn [bind]. rewrite (firstOf_map _ (@strings_Split_nonempty (Param e) space)).
    reflexivity. }
  split; [exact H|].
  intros Hmiss Hsp Hc. rewrite H, (firstOf_Split_id space _ Hsp).
  rewrite (resolvedName_missing fs _ Hmiss Hc); reflexivity.
Qed.

(** X12.  The four format rules have fixed reasons, the field name followed
    by the rule's message, whatever the body, the translator and the custom
    messages. *)
Theorem format_rule_reasons (gv : genericValidator) (body : any) (e : FieldError) :
  (Tag e = documentTag ->
   translateReason gv body e = Ret (Field e ++ " must be a valid cpf or cnpj")%string)
  /\ (Tag e = decimal2placesTag ->
      translateReason gv body e
      = Ret (Field e ++ " must be in a decimal value format as %.2f")%string)
  /\ (Tag e = brZipCodeTag ->
      translateReason gv body e = Ret (Field e ++ " must be a valid br zip code")%string)
  /\ (Tag e = iso8601dateTag ->
      translateReason gv body e
      = Ret (Field e ++ " must be a YYYY-MM-DD format date")%string).
Proof.
  repeat split; intros Htag; unfold translateReason; rewrite Htag; reflexivity.
Qed.

Lemma lookupMessage_notin (m : list (string * string)) (tag : string) :
  ~ In tag (map fst m) -> lookupMessage m tag = EmptyString.
Proof.
  induction m as [|[k v] m IH]; simpl; [reflexivity|].
  intros H. destruct (String.eqb tag k) eqn:Hk.
  - apply String.eqb_eq in Hk; subst k. contradiction H; left; reflexivity.
  - apply IH; intros Hin; apply H; right; exact Hin.
Qed.

Lemma lookupMessage_In (m : list (string * string)) (tag msg : string) :
  NoDup (map fst m) -> In (tag, msg) m -> lookupMessage m tag = msg.
Proof.
  induction m as [|[k v] m IH]; simpl; [intros _ []|].
  intros Hnd Hin; inversion Hnd as [|? ? Hk Hnd']; subst.
  destruct (String.eqb tag k) eqn:Htk.
  - apply String.eqb_eq in Htk; subst k.
    destruct Hin as [Heq | Hin]; [injection Heq as ->; reflexivity|].
    contradiction Hk. apply (in_map fst) in Hin; exact Hin.
  - destruct Hin as [Heq | Hin].
    + injection Heq as -> ->. rewrite String.eqb_refl in Htk; discriminate Htk.
    + apply (IH Hnd' Hin).
Qed.

(** X13.  A violation whose rule name starts with "custom" gets the
    caller's message registered under exactly that name, and the empty
    reason when the caller supplied none; the body, the rule's parameter and
    the default translator play no part. *)
Theorem custom_rule_reason (gv : genericValidator) (body : any) (e : FieldError) :
  strings_HasPrefix (Tag e) customPrefix = true ->
  NoDup (map fst (messageErrors gv)) ->
  (forall message, In (Tag e, message) (messageErrors gv) ->
                   translateReason gv body e = Ret message)
  /\ (~ In (Tag e) (map fst (messageErrors gv)) ->
      translateReason gv body e = Ret EmptyString).
Proof.
  intros Hprefix Hnd; unfold translateReason; rewrite Hprefix; split.
  - intros message Hin; rewrite (lookupMessage_In _ _ _ Hnd Hin); reflexivity.
  - intros Hnot; rewrite (lookupMessage_notin _ _ Hnot); reflexivity.
Qed.

(** X14.  Every other rule name is left to the engine's translator: when
    the name neither starts with "custom" nor is one of the seven names the
    switch lists, the reason is the default translation of the violation. *)
Theorem default_translation_reason (gv : genericValidator) (body : any) (e : FieldError) :
  strings_HasPrefix (Tag e) customPrefix = false ->
  ~ In (Tag e) ["required_without_all"; "required_with"; datetimeGteTag; documentTag;
                decimal2placesTag; brZipCodeTag; iso8601dateTag] ->
  translateReason gv body e = Ret (trans gv e).
Proof.
  intros Hprefix Hnot; unfold translateReason; rewrite Hprefix.
  repeat match goal with
         | |- context [String.eqb (Tag e) ?t] =>
             let H := fresh "H" in
             destruct (String.eqb (Tag e) t) eqn:H;
             [apply String.eqb_eq in H; contradiction Hnot; rewrite H; simpl; tauto|]
         end.
  reflexivity.
Qed.

(** ** Construction *)

Lemma registerCustom_inr (custom : list (string * Func)) :
  forall registry registry',
    registerCustom registry custom = inr registry' ->
    forall k fn, In (k, fn) custom -> strings_HasPrefix k customPrefix = true.
Proof.
  induction custom as [|[k0 fn0] custom IH]; simpl; intros registry registry' H k fn Hin.
  - destruct Hin.
  - destruct (strings_HasPrefix k0 customPrefix) eqn:Hp; simpl in H; [|discriminate H].
    destruct Hin as [Heq | Hin]; [injection Heq as <- _; exact Hp|].
    apply (IH _ _ H k fn Hin).
Qed.

Lemma registerCustom_inl (custom : list (string * Func)) :
  forall registry e,
    registerCustom registry custom = inl e ->
    exists k fn, In (k, fn) custom /\ strings_HasPrefix k customPrefix = false.
Proof.
  induction custom as [|[k0 fn0] custom IH]; simpl; intros registry e H.
  - discriminate H.
  - destruct (strings_HasPrefix k0 customPrefix) eqn:Hp; simpl in H.
    + destruct (IH _ _ H) as [k [fn [Hin Hk]]].
      exists k, fn; split; [right; exact Hin | exact Hk].
    + exists k0, fn0; split; [left; reflexivity | exact Hp].
Qed.

(** X15.  [NewValidator] enforces the naming convention of custom rules: a
    validator is only ever returned when every custom name starts with
    "custom" (and it then carries the caller's messages); the error
    [ErrInvalidCustomValidationTag] means that some name does not; and a
    first custom rule with a bad name makes the construction fail with that
    error.  (The registration errors of the engine itself are not part of
    the model.) *)
Theorem NewValidator_custom_prefix
  (time_Parse : string -> string -> option Time) (isCPF isCNPJ : string -> bool)
  (customValidations : list (string * Func)) (messages : list (string * string)) :
  (forall gv,
      NewValidator time_Parse isCPF isCNPJ customValidations messages = inr gv ->
      (forall k fn, In (k, fn) customValidations -> strings_HasPrefix k customPrefix = true)
      /\ messageErrors gv = messages)
  /\ (NewValidator time_Parse isCPF isCNPJ customValidations messages
      = inl ErrInvalidCustomValidationTag ->
      exists k fn, In (k, fn) customValidations /\ strings_HasPrefix k customPrefix = false)
  /\ (forall k fn rest,
        customValidations = (k, fn) :: rest ->
        strings_HasPrefix k customPrefix = false ->
        NewValidator time_Parse isCPF isCNPJ customValidations messages
        = inl ErrInvalidCustomValidationTag).
Proof.
  unfold NewValidator; split; [|split].
  - intros gv H.
    destruct (registerCustom [("required", requiredRule)] customValidations)
      as [e|registry] eqn:Hreg; [discriminate H|].
    injection H as <-; split; [|reflexivity].
    apply (registerCustom_inr _ _ Hreg).
  - intros H.
    destruct (registerCustom [("required", requiredRule)] customValidations)
      as [e|registry] eqn:Hreg; [|discriminate H].
    apply (registerCustom_inl _ _ Hreg).
  - intros k fn rest -> Hk; simpl; rewrite Hk; reflexivity.
Qed.

Lemma HasPrefix_custom_head (k : string) :
  strings_HasPrefix k customPrefix = true -> exists rest, k = String "c" rest.
Proof.
  unfold strings_HasPrefix, customPrefix; destruct k as [|a k]; [simpl; discriminate|].
  change (String.prefix "custom" (String a k))
    with (if ascii_dec "c"%char a then String.prefix "ustom" k else false).
  destruct (ascii_dec "c"%char a) as [<- | _]; [|discriminate].
  intros _; exists k; reflexivity.
Qed.

(** The registration of the built-in rules puts the package's predicates
    under their five names and leaves the names that start with "custom"
    as they were. *)
Lemma registerBuiltins_lookup
  (time_Parse : string -> string -> option Time) (isCPF isCNPJ : string -> bool)
  (registry : list (string * Func)) :
  lookupRule (registerBuiltins time_Parse isCPF isCNPJ registry) datetimeGteTag
  = Some (validateDatetimeGTE time_Parse)
  /\ lookupRule (registerBuiltins time_Parse isCPF isCNPJ registry) documentTag
     = Some (pureRule (validDocument isCPF isCNPJ))
  /\ lookupRule (registerBuiltins time_Parse isCPF isCNPJ registry) decimal2placesTag
     = Some (pureRule validDecimalValue)
  /\ lookupRule (registerBuiltins time_Parse isCPF isCNPJ registry) brZipCodeTag
     = Some (pureRule validateBrZipCode)
  /\ lookupRule (registerBuiltins time_Parse isCPF isCNPJ registry) iso8601dateTag
     = Some (pureRule (validateISO8601Date time_Parse))
  /\ (forall k, strings_HasPrefix k customPrefix = true ->
                lookupRule (registerBuiltins time_Parse isCPF isCNPJ registry) k
                = lookupRule registry k).
Proof.
  repeat split.
  intros k Hk. destruct (HasPrefix_custom_head k Hk) as [rest ->]. reflexivity.
Qed.

Lemma registerCustom_lookup_other (custom : list (string * Func)) :
  forall registry registry' k,
    registerCustom registry custom = inr registry' ->
    ~ In k (map fst custom) ->
    lookupRule registry' k = lookupRule registry k.
Proof.
  induction custom as [|[k0 fn0] custom IH]; simpl; intros registry registry' k H Hk.
  - injection H as <-; reflexivity.
  - destruct (strings_HasPrefix k0 customPrefix); simpl in H; [|discriminate H].
    rewrite (IH _ _ k H) by (intros Hin; apply Hk; right; exact Hin).
    unfold RegisterValidation; simpl.
    destruct (String.eqb k0 k) eqn:E; [|reflexivity].
    apply String.eqb_eq in E; contradiction Hk; left; exact E.
Qed.

Lemma registerCustom_lookup (custom : list (string * Func)) :
  forall registry registry' k fn,
    registerCustom registry custom = inr registry' ->
    NoDup (map fst custom) ->
    In (k, fn) custom ->
    lookupRule registry' k = Some fn.
Proof.
  induction custom as [|[k0 fn0] custom IH]; simpl; intros registry registry' k fn H Hnd Hin.
  - destruct Hin.
  - destruct (strings_HasPrefix k0 customPrefix); simpl in H; [|discriminate H].
    inversion Hnd as [|? ? Hk0 Hnd']; subst.
    destruct Hin as [Heq | Hin].
    + injection Heq as -> ->.
      rewrite (registerCustom_lookup_other _ _ k H Hk0).
      unfold RegisterValidation; simpl; rewrite String.eqb_refl; reflexivity.
    + apply (IH _ _ k fn H Hnd' Hin).
Qed.

(** X16.  In [NewValidator] the built-in rules are registered after the
    custom ones and after the engine's own: the registry of every validator
    it returns holds the package's predicates under the five built-in names,
    the engine's [required] rule under its name, and every custom rule of the
    caller's map under its name.  A custom rule can thus neither replace a
    built-in rule nor be replaced by one. *)
Theorem NewValidator_registration_order
  (time_Parse : string -> string -> option Time) (isCPF isCNPJ : string -> bool)
  (customValidations : list (string * Func)) (messages : list (string * string))
  (gv : genericValidator) :
  NewValidator time_Parse isCPF isCNPJ customValidations messages = inr gv ->
  NoDup (map fst customValidations) ->
  exists registry,
    tagValidator gv = engineStruct registry
    /\ lookupRule registry datetimeGteTag = Some (validateDatetimeGTE time_Parse)
    /\ lookupRule registry documentTag = Some (pureRule (validDocument isCPF isCNPJ))
    /\ lookupRule registry decimal2placesTag = Some (pureRule validDecimalValue)
    /\ lookupRule registry brZipCodeTag = Some (pureRule validateBrZipCode)
    /\ lookupRule registry iso8601dateTag = Some (pureRule (validateISO8601Date time_Parse))
    /\ lookupRule registry "required" = Some requiredRule
    /\ (forall k fn, In (k, fn) customValidations -> lookupRule registry k = Some fn).
Proof.
  unfold NewValidator; intros H Hnd.
  destruct (registerCustom [("required", requiredRule)] customValidations)
    as [e|registry] eqn:Hreg; [discriminate H|].
  injection H as <-.
  exists (registerBuiltins time_Parse isCPF isCNPJ registry).
  destruct (registerBuiltins_lookup time_Parse isCPF isCNPJ registry)
    as [H1 [H2 [H3 [H4 [H5 H6]]]]].
  repeat (split; [assumption || reflexivity|]).
  split.
  - change (lookupRule (registerBuiltins time_Parse isCPF isCNPJ registry) "required")
      with (lookupRule registry "required").
    rewrite (registerCustom_lookup_other _ _ "required" Hreg); [reflexivity|].
    intros Hin. apply in_map_iff in Hin; destruct Hin as [[k fn] [Hk Hin]].
    simpl in Hk; subst k.
    pose proof (registerCustom_inr _ _ Hreg _ _ Hin) as Hp.
    vm_compute in Hp; discriminate Hp.
  - intros k fn Hin.
    rewrite (H6 k (registerCustom_inr _ _ Hreg _ _ Hin)).
    apply (registerCustom_lookup _ _ k fn Hreg Hnd Hin).
Qed.

(** X17.  The name function given to the engine returns the part of the
    [json] tag before its first comma, and the empty name for the omit marker
    ["-"]: its result is never ["-"] and never contains a comma. *)
Theorem tagNameFunc_name (fld : StructField) :
  tagNameFunc fld <> "-"
  /\ noByte comma (tagNameFunc fld) = true
  /\ (forall name opts,
        StructTag_Get (sf_Tag fld) "json" = (name ++ "," ++ opts)%string ->
        noByte comma name = true ->
        tagNameFunc fld = if String.eqb name "-" then EmptyString else name)
  /\ (forall name,
        StructTag_Get (sf_Tag fld) "json" = name -> noByte comma name = true ->
        tagNameFunc fld = if String.eqb name "-" then EmptyString else name).
Proof.
  unfold tagNameFunc; split; [|split; [|split]].
  - destruct (String.eqb _ "-") eqn:H; [discriminate|].
    apply String.eqb_neq in H; exact H.
  - destruct (String.eqb _ "-"); [reflexivity | apply firstOf_Split_noByte].
  - intros name opts Hjson Hname; rewrite Hjson.
    change ("," ++ opts)%string with (String comma opts).
    rewrite (strings_Split_app comma name opts Hname); reflexivity.
  - intros name Hjson Hname; rewrite Hjson, (firstOf_Split_id comma name Hname); reflexivity.
Qed.

(** ** The date rule as an order *)

(** X18.  On values that both parse, the date rule is a total order of the
    instants: of a pair of fields checked against each other at least one
    check passes, and both pass exactly when the two instants are equal. *)
Theorem validateDatetimeGTE_total
  (time_Parse : string -> string -> option Time)
  (fl1 fl2 : FieldLevel) (fs1 fs2 : list (StructField * Value)) (a b : UTCTime) :
  parentRecord (fl_Parent fl1) fs1 ->
  parentRecord (fl_Parent fl2) fs2 ->
  parseToUTCTime time_Parse (Value_String (fl_Field fl1)) = Ok a ->
  parseToUTCTime time_Parse (Value_String (lookupFieldValue fs1 (fl_Param fl1))) = Ok b ->
  Value_String (fl_Field fl2) = Value_String (lookupFieldValue fs1 (fl_Param fl1)) ->
  Value_String (lookupFieldValue fs2 (fl_Param fl2)) = Value_String (fl_Field fl1) ->
  (validateDatetimeGTE time_Parse fl1 = Ret true
   \/ validateDatetimeGTE time_Parse fl2 = Ret true)
  /\ (validateDatetimeGTE time_Parse fl1 = Ret true
      /\ validateDatetimeGTE time_Parse fl2 = Ret true
      <-> unixSec (utc_Time a) = unixSec (utc_Time b)
          /\ nsec (utc_Time a) = nsec (utc_Time b)).
Proof.
  intros Hp1 Hp2 Ha Hb Hf2 Ho2.
  rewrite (validateDatetimeGTE_record time_Parse fl1 Hp1),
          (validateDatetimeGTE_record time_Parse fl2 Hp2).
  rewrite Hf2, Ho2, Ha, Hb.
  assert (Htot : Time_le (utc_Time b) (utc_Time a) \/ Time_le (utc_Time a) (utc_Time b))
    by (unfold Time_le; lia).
  assert (Hanti : Time_le (utc_Time b) (utc_Time a) /\ Time_le (utc_Time a) (utc_Time b)
                  <-> unixSec (utc_Time a) = unixSec (utc_Time b)
                      /\ nsec (utc_Time a) = nsec (utc_Time b))
    by (unfold Time_le; lia).
  rewrite <- !Time_Before_false_iff in Htot, Hanti.
  destruct (Time_Before (utc_Time a) (utc_Time b));
    destruct (Time_Before (utc_Time b) (utc_Time a)); simpl;
    intuition congruence.
Qed.

(** X19.  The predicate needs a record around the field: when the
    enclosing value is neither a struct nor a non-nil pointer to a struct (a
    nil pointer, the zero Value, a value of another kind), it panics; through
    a non-nil pointer it reads the sibling of the record pointed to, and
    gives the result that record gives. *)
Theorem validateDatetimeGTE_needs_record
  (time_Parse : string -> string -> option Time) (fl : FieldLevel) :
  ((forall n fs, fl_Parent fl <> Some (VStruct n fs)) ->
   (forall elem n fs, fl_Parent fl <> Some (VPtr elem (Some (VStruct n fs)))) ->
   exists msg, validateDatetimeGTE time_Parse fl = Panic msg)
  /\ (forall elem n fs,
        fl_Parent fl = Some (VPtr elem (Some (VStruct n fs))) ->
        validateDatetimeGTE time_Parse fl
        = validateDatetimeGTE time_Parse
            (mkFieldLevel (fl_Field fl) (fl_Param fl) (Some (VStruct n fs)))).
Proof.
  split.
  - intros Hs Hp. unfold validateDatetimeGTE.
    destruct (fl_Parent fl) as [[s | k tn | n fs | elem [[s | k tn | n fs | e t | e xs | e xs]|]
                                 | elem xs | elem xs]|];
      simpl;
      try (eexists; reflexivity);
      try (destruct k; simpl; eexists; reflexivity).
    + contradiction (Hs n fs); reflexivity.
    + contradiction (Hp elem n fs); reflexivity.
  - intros elem n fs Hp. unfold validateDatetimeGTE; rewrite Hp; reflexivity.
Qed.

(** ** The calendar-date rule under the model of [time.Parse] *)

Lemma isDigit_not_sign (c : ascii) :
  isDigit c = true -> GoTime.byteIs c "-" = false /\ GoTime.byteIs c "+" = false.
Proof.
  intros H; unfold GoTime.byteIs; split.
  - destruct (Ascii.eqb c "-") eqn:E; [|reflexivity].
    apply Ascii.eqb_eq in E; subst c; vm_compute in H; discriminate H.
  - destruct (Ascii.eqb c "+") eqn:E; [|reflexivity].
    apply Ascii.eqb_eq in E; subst c; vm_compute in H; discriminate H.
Qed.

Lemma atoi_four (y1 y2 y3 y4 : ascii) :
  isDigit y1 = true ->
  GoTime.atoi (String y1 (String y2 (String y3 (String y4 EmptyString))))
  = if isDigit y2 && isDigit y3 && isDigit y4 then Some (decimal4 y1 y2 y3 y4) else None.
Proof.
  intros H1; destruct (isDigit_not_sign y1 H1) as [Hm Hp].
  unfold GoTime.atoi; rewrite Hm, Hp.
  cbn [GoTime.leadingInt]; rewrite H1.
  destruct (isDigit y2); [|reflexivity].
  destruct (isDigit y3); [|reflexivity].
  destruct (isDigit y4); reflexivity.
Qed.

Lemma dropBytes_four (y1 y2 y3 y4 : ascii) (rest : string) :
  GoTime.dropBytes 4 (String y1 (String y2 (String y3 (String y4 rest)))) = rest.
Proof.
  destruct rest; reflexivity.
Qed.

Lemma parseStd_year (layout value : string) (f : GoTime.fields) (r : string * GoTime.fields) :
  GoTime.parseStd GoTime.stdLongYear layout value f = Some r <->
  exists y1 y2 y3 y4,
    value = String y1 (String y2 (String y3 (String y4 (fst r))))
    /\ forallb isDigit [y1; y2; y3; y4] = true
    /\ snd r = GoTime.setYear f (decimal4 y1 y2 y3 y4).
Proof.
  unfold GoTime.parseStd; split.
  - destruct value as [|y1 [|y2 [|y3 [|y4 rest]]]]; try (simpl; discriminate).
    change (String.length (String y1 (String y2 (String y3 (String y4 rest)))) <? 4)%nat
      with false.
    change (GoTime.isDigitAt (String y1 (String y2 (String y3 (String y4 rest)))) 0)
      with (isDigit y1).
    change (substring 0 4 (String y1 (String y2 (String y3 (String y4 rest)))))
      with (String y1 (String y2 (String y3 (String y4 (substring 0 0 rest))))).
    replace (substring 0 0 rest) with EmptyString by (destruct rest; reflexivity).
    destruct (isDigit y1) eqn:H1; [|discriminate].
    cbn [orb negb]. rewrite (atoi_four y1 y2 y3 y4 H1), dropBytes_four.
    destruct (isDigit y2) eqn:H2; [|discriminate].
    destruct (isDigit y3) eqn:H3; [|discriminate].
    destruct (isDigit y4) eqn:H4; [|discriminate].
    cbn [andb]. intros H; injection H as <-.
    exists y1, y2, y3, y4; cbn [fst snd forallb].
    rewrite H1, H2, H3, H4; repeat split.
  - intros [y1 [y2 [y3 [y4 [-> [Hd Hr]]]]]].
    cbn [forallb] in Hd.
    repeat (apply andb_true_iff in Hd; destruct Hd as [? Hd]).
    change (String.length (String y1 (String y2 (String y3 (String y4 (fst r))))) <? 4)%nat
      with false.
    change (GoTime.isDigitAt (String y1 (String y2 (String y3 (String y4 (fst r))))) 0)
      with (isDigit y1).
    change (substring 0 4 (String y1 (String y2 (String y3 (String y4 (fst r))))))
      with (String y1 (String y2 (String y3 (String y4 (substring 0 0 (fst r)))))).
    replace (substring 0 0 (fst r)) with EmptyString by (destruct (fst r); reflexivity).
    rewrite H; cbn [orb negb]. rewrite (atoi_four y1 y2 y3 y4 H), H0, H1, H2, dropBytes_four.
    cbn [andb]. destruct r as [v f']; simpl in Hr |- *; rewrite Hr; reflexivity.
Qed.

Lemma getnum_fixed (value : string) (n : Z) (rest : string) :
  GoTime.getnum value true = Some (n, rest) <->
  exists a b, value = String a (String b rest)
              /\ isDigit a = true /\ isDigit b = true /\ n = decimal2 a b.
Proof.
  unfold GoTime.getnum; split.
  - destruct value as [|a [|b v]]; try discriminate.
    + destruct (isDigit a); discriminate.
    + destruct (isDigit a) eqn:Ha; [|discriminate].
      destruct (isDigit b) eqn:Hb; [|discriminate].
      intros H; injection H as <- <-.
      exists a, b; repeat split; assumption.
  - intros [a [b [-> [Ha [Hb ->]]]]]; rewrite Ha, Hb; reflexivity.
Qed.

Lemma skip_hyphen (value rest : string) :
  GoTime.skip value "-" = Some rest <-> value = String "-" rest.
Proof.
  unfold GoTime.skip; split.
  - destruct value as [|c v]; [discriminate|].
    cbn [GoTime.skipFrom]. change (GoTime.byteIs "-" " ") with false. cbv iota.
    destruct (GoTime.byteIs c "-") eqn:Hc; [|discriminate].
    apply Ascii.eqb_eq in Hc; subst c.
    intros H; injection H as <-; reflexivity.
  - intros ->; reflexivity.
Qed.

(** The loop of [parse] on the layout ["2006-01-02"], element by element. *)
Lemma parseLoop_date (value : string) (f : GoTime.fields) :
  GoTime.parseLoop 11 "2006-01-02" value f =
  match GoTime.parseStd GoTime.stdLongYear "-01-02" value f with
  | Some (v1, f1) =>
      match GoTime.skip v1 "-" with
      | Some v2 =>
          match GoTime.parseStd GoTime.stdZeroMonth "-02" v2 f1 with
          | Some (v3, f2) =>
              match GoTime.skip v3 "-" with
              | Some v4 =>
                  match GoTime.parseStd GoTime.stdZeroDay EmptyString v4 f2 with
                  | Some (EmptyString, f3) => Some f3
                  | _ => None
                  end
              | None => None
              end
          | None => None
          end
      | None => None
      end
  | None => None
  end.
Proof.
  change (GoTime.parseLoop 11 "2006-01-02" value f) with
    (match GoTime.parseStd GoTime.stdLongYear "-01-02" value f with
     | Some (v1, f1) => GoTime.parseLoop 9 "-01-02" v1 f1
     | None => None
     end).
  destruct (GoTime.parseStd GoTime.stdLongYear "-01-02" value f) as [[v1 f1]|]; [|reflexivity].
  change (GoTime.parseLoop 9 "-01-02" v1 f1) with
    (match GoTime.skip v1 "-" with
     | Some v2 =>
         match GoTime.parseStd GoTime.stdZeroMonth "-02" v2 f1 with
         | Some (v3, f2) => GoTime.parseLoop 8 "-02" v3 f2
         | None => None
         end
     | None => None
     end).
  destruct (GoTime.skip v1 "-") as [v2|]; [|reflexivity].
  destruct (GoTime.parseStd GoTime.stdZeroMonth "-02" v2 f1) as [[v3 f2]|]; [|reflexivity].
  change (GoTime.parseLoop 8 "-02" v3 f2) with
    (match GoTime.skip v3 "-" with
     | Some v4 =>
         match GoTime.parseStd GoTime.stdZeroDay EmptyString v4 f2 with
         | Some (v5, f3) => GoTime.parseLoop 7 EmptyString v5 f3
         | None => None
         end
     | None => None
     end).
  destruct (GoTime.skip v3 "-") as [v4|]; [|reflexivity].
  destruct (GoTime.parseStd GoTime.stdZeroDay EmptyString v4 f2) as [[v5 f3]|]; [|reflexivity].
  destruct v5; reflexivity.
Qed.

Lemma digitVal_range (c : ascii) : isDigit c = true -> (0 <= GoTime.digitVal c <= 9)%Z.
Proof.
  unfold isDigit, GoTime.digitVal; intros H.
  apply andb_true_iff in H; destruct H as [H1 H2].
  apply Nat.leb_le in H1; apply Nat.leb_le in H2; lia.
Qed.

Lemma parseStd_month (layout value rest : string) (f f' : GoTime.fields) :
  GoTime.parseStd GoTime.stdZeroMonth layout value f = Some (rest, f') <->
  exists a b, value = String a (String b rest)
              /\ isDigit a = true /\ isDigit b = true
              /\ (1 <= decimal2 a b <= 12)%Z
              /\ f' = GoTime.setMonth f (decimal2 a b).
Proof.
  unfold GoTime.parseStd; split.
  - destruct (GoTime.getnum value true) as [[m v]|] eqn:Hg; [|discriminate].
    apply getnum_fixed in Hg; destruct Hg as [a [b [-> [Ha [Hb ->]]]]].
    destruct (decimal2 a b <=? 0)%Z eqn:H0; [discriminate|].
    destruct (12 <? decimal2 a b)%Z eqn:H12; [discriminate|].
    cbn [orb]. intros H; injection H as <- <-.
    apply Z.leb_gt in H0; apply Z.ltb_ge in H12.
    exists a, b; repeat split; try assumption; lia.
  - intros [a [b [-> [Ha [Hb [[Hlo Hhi] ->]]]]]].
    assert (Hg : GoTime.getnum (String a (String b rest)) true = Some (decimal2 a b, rest))
      by (apply getnum_fixed; exists a, b; repeat split; assumption).
    rewrite Hg.
    replace (decimal2 a b <=? 0)%Z with false by (symmetry; apply Z.leb_gt; lia).
    replace (12 <? decimal2 a b)%Z with false by (symmetry; apply Z.ltb_ge; lia).
    reflexivity.
Qed.

Lemma parseStd_day (layout value rest : string) (f f' : GoTime.fields) :
  GoTime.parseStd GoTime.stdZeroDay layout value f = Some (rest, f') <->
  exists a b, value = String a (String b rest)
              /\ isDigit a = true /\ isDigit b = true
              /\ f' = GoTime.setDay f (decimal2 a b).
Proof.
  unfold GoTime.parseStd; split.
  - destruct (GoTime.getnum value true) as [[m v]|] eqn:Hg; [|discriminate].
    apply getnum_fixed in Hg; destruct Hg as [a [b [-> [Ha [Hb ->]]]]].
    intros H; injection H as <- <-.
    exists a, b; repeat split; assumption.
  - intros [a [b [-> [Ha [Hb ->]]]]].
    assert (Hg : GoTime.getnum (String a (String b rest)) true = Some (decimal2 a b, rest))
      by (apply getnum_fixed; exists a, b; repeat split; assumption).
    rewrite Hg; reflexivity.
Qed.

(** The fields read from a date under the layout ["2006-01-02"]. *)
Lemma parseLoop_date_iff (value : string) (f : GoTime.fields) :
  GoTime.parseLoop 11 "2006-01-02" value GoTime.initFields = Some f <->
  exists y1 y2 y3 y4 m1 m2 d1 d2 : ascii,
    value = String y1 (String y2 (String y3 (String y4 (String "-"
              (String m1 (String m2 (String "-" (String d1 (String d2 EmptyString)))))))))
    /\ forallb isDigit [y1; y2; y3; y4; m1; m2; d1; d2] = true
    /\ (1 <= decimal2 m1 m2 <= 12)%Z
    /\ f = GoTime.setDay
             (GoTime.setMonth (GoTime.setYear GoTime.initFields (decimal4 y1 y2 y3 y4))
                (decimal2 m1 m2))
             (decimal2 d1 d2).
Proof.
  rewrite parseLoop_date; split.
  - destruct (GoTime.parseStd GoTime.stdLongYear "-01-02" value GoTime.initFields)
      as [[v1 f1]|] eqn:Hy; [|discriminate].
    apply parseStd_year in Hy; cbn [fst snd] in Hy.
    destruct Hy as [y1 [y2 [y3 [y4 [-> [Hdy ->]]]]]].
    destruct (GoTime.skip v1 "-") as [v2|] eqn:Hs1; [|discriminate].
    apply skip_hyphen in Hs1; subst v1.
    destruct (GoTime.parseStd GoTime.stdZeroMonth "-02" v2 _) as [[v3 f2]|] eqn:Hm;
      [|discriminate].
    apply parseStd_month in Hm.
    destruct Hm as [m1 [m2 [-> [Hm1 [Hm2 [Hrange ->]]]]]].
    destruct (GoTime.skip v3 "-") as [v4|] eqn:Hs2; [|discriminate].
    apply skip_hyphen in Hs2; subst v3.
    destruct (GoTime.parseStd GoTime.stdZeroDay EmptyString v4 _) as [[v5 f3]|] eqn:Hd;
      [|discriminate].
    apply parseStd_day in Hd.
    destruct Hd as [d1 [d2 [-> [Hd1 [Hd2 ->]]]]].
    destruct v5; [|discriminate].
    intros H; injection H as <-.
    exists y1, y2, y3, y4, m1, m2, d1, d2.
    cbn [forallb] in Hdy |- *.
    repeat (apply andb_true_iff in Hdy; destruct Hdy as [? Hdy]).
    split; [reflexivity|].
    split; [rewrite H, H0, H1, H2, Hm1, Hm2, Hd1, Hd2; reflexivity|].
    split; [exact Hrange | reflexivity].
  - intros [y1 [y2 [y3 [y4 [m1 [m2 [d1 [d2 [-> [Hd [Hrange ->]]]]]]]]]]].
    cbn [forallb] in Hd.
    repeat (apply andb_true_iff in Hd; destruct Hd as [? Hd]).
    match goal with
    | |- context [GoTime.parseStd GoTime.stdLongYear ?l ?v ?f0] =>
        assert (Hy : GoTime.parseStd GoTime.stdLongYear l v f0
                     = Some (String "-" (String m1 (String m2
                               (String "-" (String d1 (String d2 EmptyString))))),
                             GoTime.setYear f0 (decimal4 y1 y2 y3 y4)))
    end.
    { apply parseStd_year; exists y1, y2, y3, y4; cbn [fst snd forallb].
      split; [reflexivity|].
      split; [rewrite H, H0, H1, H2; reflexivity | reflexivity]. }
    rewrite Hy.
    rewrite (proj2 (skip_hyphen _ _) eq_refl).
    match goal with
    | |- context [GoTime.parseStd GoTime.stdZeroMonth ?l ?v ?f0] =>
        assert (Hm : GoTime.parseStd GoTime.stdZeroMonth l v f0
                     = Some (String "-" (String d1 (String d2 EmptyString)),
                             GoTime.setMonth f0 (decimal2 m1 m2)))
    end.
    { apply parseStd_month; exists m1, m2; repeat split; try assumption; lia. }
    rewrite Hm.
    rewrite (proj2 (skip_hyphen _ _) eq_refl).
    match goal with
    | |- context [GoTime.parseStd GoTime.stdZeroDay ?l ?v ?f0] =>
        assert (Hday : GoTime.parseStd GoTime.stdZeroDay l v f0
                       = Some (EmptyString, GoTime.setDay f0 (decimal2 d1 d2)))
    end.
    { apply parseStd_day; exists d1, d2; repeat split; assumption. }
    rewrite Hday; reflexivity.
Qed.

(** X20.  Under the model of [time.Parse], the calendar-date rule passes on
    a string value exactly when it is ten bytes [YYYY-MM-DD] of digits and
    hyphens, with a month from 1 to 12 and a day that exists in that month of
    that year (February has 29 days in leap years only). *)
Theorem validateISO8601Date_iff (s param : string) (parent : rvalue) :
  validateISO8601Date GoTime.Parse (mkFieldLevel (Some (VString s)) param parent) = true
  <-> isoDate s.
Proof.
  unfold validateISO8601Date, isoDate; simpl fl_Field; simpl Value_String.
  unfold GoTime.Parse.
  change (S (String.length "2006-01-02")) with 11%nat.
  split.
  - destruct (GoTime.parseLoop 11 "2006-01-02" s GoTime.initFields) as [f|] eqn:Hloop;
      [|discriminate].
    apply parseLoop_date_iff in Hloop.
    destruct Hloop as [y1 [y2 [y3 [y4 [m1 [m2 [d1 [d2 [-> [Hd [Hrange ->]]]]]]]]]]].
    cbn [GoTime.month GoTime.day GoTime.year GoTime.setDay GoTime.setMonth GoTime.setYear
         GoTime.initFields].
    assert (Hday : (0 <= decimal2 d1 d2)%Z).
    { cbn [forallb] in Hd.
      repeat (apply andb_true_iff in Hd; destruct Hd as [? Hd]).
      unfold decimal2.
      pose proof (digitVal_range d1 ltac:(assumption)).
      pose proof (digitVal_range d2 ltac:(assumption)). lia. }
    replace (decimal2 m1 m2 <? 0)%Z with false by (symmetry; apply Z.ltb_ge; lia).
    replace (decimal2 d1 d2 <? 0)%Z with false by (symmetry; apply Z.ltb_ge; lia).
    destruct (decimal2 d1 d2 <? 1)%Z eqn:H1; [discriminate|].
    destruct (GoTime.daysIn (decimal2 m1 m2) (decimal4 y1 y2 y3 y4) <? decimal2 d1 d2)%Z
      eqn:H2; [discriminate|].
    intros _. apply Z.ltb_ge in H1; apply Z.ltb_ge in H2.
    exists y1, y2, y3, y4, m1, m2, d1, d2; repeat split; try assumption; lia.
  - intros [y1 [y2 [y3 [y4 [m1 [m2 [d1 [d2 [-> [Hd [Hrange [Hlo Hhi]]]]]]]]]]]].
    assert (Hloop : GoTime.parseLoop 11 "2006-01-02"
                      (String y1 (String y2 (String y3 (String y4 (String "-"
                         (String m1 (String m2 (String "-"
                            (String d1 (String d2 EmptyString))))))))))
                      GoTime.initFields
                    = Some (GoTime.setDay
                              (GoTime.setMonth
                                 (GoTime.setYear GoTime.initFields (decimal4 y1 y2 y3 y4))
                                 (decimal2 m1 m2))
                              (decimal2 d1 d2))).
    { apply parseLoop_date_iff.
      exists y1, y2, y3, y4, m1, m2, d1, d2; repeat split; try assumption; lia. }
    rewrite Hloop.
    cbn [GoTime.month GoTime.day GoTime.year GoTime.setDay GoTime.setMonth GoTime.setYear
         GoTime.initFields GoTime.zUTC].
    replace (decimal2 m1 m2 <? 0)%Z with false by (symmetry; apply Z.ltb_ge; lia).
    replace (decimal2 d1 d2 <? 0)%Z with false by (symmetry; apply Z.ltb_ge; lia).
    replace (decimal2 d1 d2 <? 1)%Z with false by (symmetry; apply Z.ltb_ge; lia).
    replace (GoTime.daysIn (decimal2 m1 m2) (decimal4 y1 y2 y3 y4) <? decimal2 d1 d2)%Z
      with false by (symmetry; apply Z.ltb_ge; lia).
    reflexivity.
Qed.

(** ** Values that are not strings *)

Lemma Value_String_nonString (v : rvalue) :
  nonStringValue v -> exists rest, Value_String v = String "<" rest.
Proof.
  destruct v as [[s | k tn | n fs | e t | e xs | e xs]|]; simpl; intros H;
    try contradiction; eexists; reflexivity.
Qed.

Lemma decimal2places_head (c : ascii) (rest : string) :
  decimal2places (String c rest) -> isDigit c = true \/ c = "."%char.
Proof.
  intros [pre [frac [Hs [[d1 [d2 [-> [H1 _]]]] Hpre]]]].
  destruct Hpre as [-> | [ip [-> Hip]]].
  - simpl in Hs; injection Hs as -> _; left; exact H1.
  - destruct ip as [|x ip]; simpl in Hs, Hip.
    + injection Hs as -> _; right; reflexivity.
    + injection Hs as -> _. apply andb_true_iff in Hip; destruct Hip as [Hx _].
      left; exact Hx.
Qed.

Lemma brZipCode_head (c : ascii) (rest : string) :
  brZipCode (String c rest) -> isDigit c = true.
Proof.
  intros [a [sep [b [Hs [Hla [Hda _]]]]]].
  destruct a as [|x a]; [discriminate Hla|].
  simpl in Hs, Hda; injection Hs as -> _.
  apply andb_true_iff in Hda; destruct Hda as [Hx _]; exact Hx.
Qed.

(** A value parsed under a layout that starts with the year starts with a
    digit. *)
Lemma Parse_starts_with_digit (layout suffix value : string) (t : Time) :
  GoTime.nextStdChunk layout = (EmptyString, GoTime.stdLongYear, suffix) ->
  GoTime.Parse layout value = Some t ->
  exists c rest, value = String c rest /\ isDigit c = true.
Proof.
  intros Hchunk; unfold GoTime.Parse.
  cbn [GoTime.parseLoop]; rewrite Hchunk.
  change (GoTime.skip value EmptyString) with (Some value). cbv iota.
  destruct (GoTime.parseStd GoTime.stdLongYear suffix value GoTime.initFields)
    as [[v1 f1]|] eqn:Hy; [|discriminate].
  apply parseStd_year in Hy.
  destruct Hy as [y1 [y2 [y3 [y4 [-> [Hd _]]]]]].
  cbn [forallb] in Hd. apply andb_true_iff in Hd; destruct Hd as [H1 _].
  intros _; eexists; eexists; split; [reflexivity | exact H1].
Qed.

Lemma layouts_start_with_year (layout : string) :
  In layout ("2006-01-02" :: layouts) ->
  exists suffix, GoTime.nextStdChunk layout = (EmptyString, GoTime.stdLongYear, suffix).
Proof.
  intros Hin; simpl in Hin.
  repeat (destruct Hin as [<- | Hin]; [eexists; vm_compute; reflexivity|]).
  destruct Hin.
Qed.

Lemma Parse_rejects_bracket (layout rest : string) :
  In layout ("2006-01-02" :: layouts) -> GoTime.Parse layout (String "<" rest) = None.
Proof.
  intros Hin. destruct (@layouts_start_with_year layout Hin) as [suffix Hchunk].
  destruct (GoTime.Parse layout (String "<" rest)) as [t|] eqn:H; [|reflexivity].
  destruct (@Parse_starts_with_digit _ _ _ _ Hchunk H) as [c [r [Heq Hc]]].
  injection Heq as <- _. vm_compute in Hc; discriminate Hc.
Qed.

Lemma parseToUTCTime_rejects_bracket (rest : string) :
  parseToUTCTime GoTime.Parse (String "<" rest)
  = Err ("invalid date format: " ++ String "<" rest).
Proof.
  apply (proj1 (parseWith_all_fail GoTime.Parse layouts (String "<" rest))).
  intros layout Hin; apply Parse_rejects_bracket; right; exact Hin.
Qed.

Lemma MatchString_decimal (s : string) :
  MatchString decimalValuesRegex s = true <-> decimal2places s.
Proof.
  change decimalValuesRegex with (mkRegexp true (body decimalValuesRegex) true).
  rewrite MatchString_anchored; apply matches_decimal.
Qed.

Lemma MatchString_zip (s : string) :
  MatchString regexBrZipCode s = true <-> brZipCode s.
Proof.
  change regexBrZipCode with (mkRegexp true (body regexBrZipCode) true).
  rewrite MatchString_anchored; apply matches_zip.
Qed.

(** X22.  The string rules read the field with [reflect]'s [String], which
    for a value that is not a string is a description in angle brackets: on
    such a field the decimal, postal-code and calendar-date rules fail, and
    on a record the date rule fails when the annotated field or the sibling
    is not a string (a missing sibling included). *)
Theorem string_rules_reject_non_strings (fl : FieldLevel) :
  (nonStringValue (fl_Field fl) ->
   validDecimalValue fl = false
   /\ validateBrZipCode fl = false
   /\ validateISO8601Date GoTime.Parse fl = false)
  /\ (forall fs,
        parentRecord (fl_Parent fl) fs ->
        nonStringValue (fl_Field fl)
        \/ nonStringValue (lookupFieldValue fs (fl_Param fl)) ->
        validateDatetimeGTE GoTime.Parse fl = Ret false).
Proof.
  split.
  - intros Hns. destruct (@Value_String_nonString _ Hns) as [rest Hs].
    unfold validDecimalValue, validateBrZipCode, validateISO8601Date; rewrite Hs.
    split; [|split].
    + destruct (MatchString decimalValuesRegex (String "<" rest)) eqn:H; [|reflexivity].
      apply MatchString_decimal, decimal2places_head in H.
      destruct H as [H | H]; [vm_compute in H; discriminate H | discriminate H].
    + destruct (MatchString regexBrZipCode (String "<" rest)) eqn:H; [|reflexivity].
      apply MatchString_zip, brZipCode_head in H. vm_compute in H; discriminate H.
    + rewrite (@Parse_rejects_bracket "2006-01-02" rest (or_introl eq_refl)); reflexivity.
  - intros fs Hp Hns.
    rewrite (validateDatetimeGTE_record GoTime.Parse fl Hp).
    destruct Hns as [Hns | Hns]; destruct (@Value_String_nonString _ Hns) as [rest Hs];
      rewrite Hs, parseToUTCTime_rejects_bracket.
    + reflexivity.
    + destruct (parseToUTCTime GoTime.Parse (Value_String (fl_Field fl))); reflexivity.
Qed.

(** ** The two kinds of problem *)

Lemma validate_problem_shape (gv : genericValidator) (body : any) (p : Problem) :
  validate gv body = Ret (Some p) -> exists l, p = invalidParamsProblem l.
Proof.
  unfold validate; intros H.
  apply bind_Ret_inv in H; destruct H as [err [_ H]].
  destruct err as [|errs|]; try discriminate H.
  destruct (0 <? List.length errs)%nat; try discriminate H.
  apply bind_Ret_inv in H; destruct H as [l [_ H]].
  injection H as <-. exists l; reflexivity.
Qed.

Lemma validateElements_problem (gv : genericValidator) (xs : list Value) (p : option Problem) :
  validateElements gv xs = Ret (error_Problem p) ->
  exists x q, In x xs /\ p = Some q /\ validate gv (Some x) = Ret (Some q).
Proof.
  induction xs as [|x xs IH]; simpl; [discriminate|].
  unfold Value_Interface.
  destruct (validate gv (Some x)) as [[q|]|m] eqn:Hv; simpl.
  - intros H; injection H as <-. exists x, q; repeat split; [left; reflexivity | exact Hv].
  - intros H. destruct (IH H) as [y [q [Hin [Hp Hy]]]].
    exists y, q; repeat split; [right; exact Hin | exact Hp | exact Hy].
  - discriminate.
Qed.

(** X23.  The two kinds of problem never mix: on a slice [Validate]
    returns the empty-collection problem exactly when the slice is empty, and
    any other problem it returns is the problem of one of the elements, made
    of status 400 and the [invalid_params] list. *)
Theorem Validate_slice_problem_kinds
  (gv : genericValidator) (elem : GoType) (xs : list Value) :
  (Validate gv (Some (VSlice elem xs)) = Ret (error_Problem (Some cannotBeEmptyArrayProblemJSON))
   <-> xs = [])
  /\ (forall p,
        xs <> [] ->
        Validate gv (Some (VSlice elem xs)) = Ret (error_Problem p) ->
        exists x l, In x xs /\ p = Some (invalidParamsProblem l)
                    /\ validate gv (Some x) = Ret (Some (invalidParamsProblem l))).
Proof.
  assert (Hkinds : forall p,
             xs <> [] ->
             Validate gv (Some (VSlice elem xs)) = Ret (error_Problem p) ->
             exists x l, In x xs /\ p = Some (invalidParamsProblem l)
                         /\ validate gv (Some x) = Ret (Some (invalidParamsProblem l))).
  { intros p Hne. rewrite Validate_slice.
    destruct xs as [|a xs]; [contradiction Hne; reflexivity|].
    intros H. destruct (@validateElements_problem _ _ _ H) as [x [q [Hin [-> Hv]]]].
    destruct (@validate_problem_shape _ _ _ Hv) as [l ->].
    exists x, l; repeat split; assumption. }
  split; [|exact Hkinds].
  split.
  - intros H. destruct xs as [|a xs]; [reflexivity|].
    destruct (Hkinds _ ltac:(discriminate) H) as [x [l [_ [Heq _]]]].
    discriminate Heq.
  - intros ->; reflexivity.
Qed.

(** ** The failure of [parseToUTCTime] *)

(** X21.  [parseToUTCTime] fails exactly when [time.Parse] rejects the
    string under every layout, and its error is then "invalid date format: "
    followed by the string. *)
Theorem parseToUTCTime_Err_iff
  (time_Parse : string -> string -> option Time) (s msg : string) :
  parseToUTCTime time_Parse s = Err msg <->
  ((forall layout, In layout layouts -> time_Parse layout s = None)
   /\ msg = ("invalid date format: " ++ s)%string).
Proof.
  unfold parseToUTCTime; split.
  - intros H. pose proof (parseWith_Err_msg _ _ _ H) as Hmsg; subst msg.
    split; [apply parseWith_all_fail, H | reflexivity].
  - intros [H ->]. apply parseWith_all_fail, H.
Qed.

(** ** The further properties on concrete records *)

Lemma validate_record_violations_witness :
  exists invalidParams,
    validate testValidator (Some (requiredModel ""))
    = Ret (Some (invalidParamsProblem invalidParams))
    /\ List.length invalidParams = 1%nat.
Proof.
  assert (Hrec : recordBody (Some (requiredModel ""))
                   [mkStructField "RequiredField"
                      [("json", "required_field"); ("validate", "required")]])
    by (left; eexists; eexists; split; reflexivity).
  assert (Hne : [requiredViolation] <> []) by discriminate.
  destruct (@validate_record_violations testValidator _ _ [requiredViolation]
              Hrec eq_refl Hne) as [l [Hv [_ [Hlen _]]]].
  exists l; split; [exact Hv | exact Hlen].
Defined.

Lemma validate_InvalidValidationError_panics_witness :
  validate testValidator (Some (VPtr requiredModelType None)) = Panic typeAssertionPanic.
Proof.
  apply (proj1 (@validate_InvalidValidationError_panics testValidator
                  (Some (VPtr requiredModelType None)) eq_refl)).
Defined.

Lemma getJsonTagNameFromPropertyName_missing_fields_witness :
  getJsonTagNameFromPropertyName "Mobile Pager" (Some contactRecord)
  = Ret ["Mobile"; "Pager"].
Proof.
  assert (Hrec : recordBody (Some contactRecord) contactFields)
    by (left; eexists; eexists; split; reflexivity).
  apply (@getJsonTagNameFromPropertyName_missing_fields "Mobile Pager" _ _ Hrec eq_refl).
  intros field [<- | [<- | []]]; reflexivity.
Defined.

Lemma jsonTagName_json_options_witness :
  jsonTagName (Some (TStruct "User" [optionsField])) "Nick" = Ret "nick".
Proof.
  assert (Hf : lookupField [optionsField] "Nick" = Some optionsField) by reflexivity.
  assert (Hn : noByte comma "nick" = true) by reflexivity.
  apply (proj1 (proj1 (@jsonTagName_json_options "User" [optionsField] "Nick" optionsField
                         "nick" "omitempty" Hf Hn) eq_refl)).
Defined.

Lemma jsonTagName_priority_witness :
  jsonTagName (Some (TStruct "Contact" contactFields)) "Fax" = Ret "fax_number".
Proof.
  assert (Hf : lookupField contactFields "Fax"
               = Some (mkStructField "Fax" [("param", "fax_number")])) by reflexivity.
  apply (proj1 (@jsonTagName_priority "Contact" contactFields "Fax"
                  (mkStructField "Fax" [("param", "fax_number")]) Hf eq_refl)
           "fax_number" eq_refl); [discriminate | reflexivity].
Defined.

Lemma required_with_reason_witness :
  translateReason testValidator (Some contactRecord) requiredWithViolation
  = Ret "email is required if one of these fields are filled: phone, fax_number".
Proof.
  assert (Hrec : recordBody (Some contactRecord) contactFields)
    by (left; eexists; eexists; split; reflexivity).
  apply (@required_with_reason testValidator (Some contactRecord) contactFields
           requiredWithViolation eq_refl Hrec).
Defined.

Lemma datetimeGte_reason_witness :
  translateReason testValidator
    (Some (VStruct EmptyString (datePairFields "Field1" "2022-05-01" "2022-01-01")))
    dateViolation
  = Ret "field2 must be greater than or equal Field1".
Proof.
  assert (Hrec : recordBody
                   (Some (VStruct EmptyString (datePairFields "Field1" "2022-05-01" "2022-01-01")))
                   (map fst (datePairFields "Field1" "2022-05-01" "2022-01-01")))
    by (left; eexists; eexists; split; reflexivity).
  apply (proj1 (@datetimeGte_reason testValidator _ _ dateViolation eq_refl Hrec)).
Defined.

Lemma custom_rule_reason_witness :
  translateReason customMessageValidator None customViolation
  = Ret "custom_field must be one of this values [1 2]".
Proof.
  assert (Hnd : NoDup (map fst (messageErrors customMessageValidator)))
    by (repeat constructor; intros []).
  apply (proj1 (@custom_rule_reason customMessageValidator None customViolation eq_refl Hnd)).
  left; reflexivity.
Defined.

Lemma default_translation_reason_witness :
  translateReason testValidator None requiredViolation
  = Ret "required_field is a required field".
Proof.
  apply (@default_translation_reason testValidator None requiredViolation eq_refl).
  simpl; intros H.
  repeat (destruct H as [H | H]; [discriminate H|]).
  exact H.
Defined.

Lemma validateDatetimeGTE_total_witness :
  validateDatetimeGTE GoTime.Parse (datePairLevel "Field1" "2022-01-01" "2022-05-01") = Ret true
  \/ validateDatetimeGTE GoTime.Parse (datePairLevel "Field1" "2022-05-01" "2022-01-01")
     = Ret true.
Proof.
  assert (Hp1 : parentRecord (fl_Parent (datePairLevel "Field1" "2022-01-01" "2022-05-01"))
                  (datePairFields "Field1" "2022-01-01" "2022-05-01"))
    by (left; exists EmptyString; reflexivity).
  assert (Hp2 : parentRecord (fl_Parent (datePairLevel "Field1" "2022-05-01" "2022-01-01"))
                  (datePairFields "Field1" "2022-05-01" "2022-01-01"))
    by (left; exists EmptyString; reflexivity).
  apply (proj1 (@validateDatetimeGTE_total GoTime.Parse _ _ _ _
                  (mkUTCTime (mkTime 1651363200 0 UTC))
                  (mkUTCTime (mkTime 1640995200 0 UTC))
                  Hp1 Hp2
                  ltac:(vm_compute; reflexivity) ltac:(vm_compute; reflexivity)
                  eq_refl eq_refl)).
Defined.

(** ** The layouts and the zone-less minute value *)

Lemma parseLoop_step (fuel : nat) (layout value prefix suffix : string)
  (st : GoTime.std) (f : GoTime.fields) :
  GoTime.nextStdChunk layout = (prefix, st, suffix) ->
  GoTime.parseLoop (S fuel) layout value f =
  match GoTime.skip value prefix with
  | None => None
  | Some v =>
      match st with
      | GoTime.stdNone =>
          match v with
          | EmptyString => Some f
          | String _ _ => None
          end
      | _ =>
          match GoTime.parseStd st suffix v f with
          | Some (v', f') => GoTime.parseLoop fuel suffix v' f'
          | None => None
          end
      end
  end.
Proof.
  intros H; cbn [GoTime.parseLoop]; rewrite H; reflexivity.
Qed.

(** The date part: under a layout that starts with ["2006-01-02"], either
    the value is rejected or the loop goes on after the day. *)
Lemma parseLoop_date_part (fuel : nat) (l0 l1 l2 l3 rest : string)
  (y1 y2 y3 y4 m1 m2 d1 d2 : ascii) (f : GoTime.fields) :
  GoTime.nextStdChunk l0 = (EmptyString, GoTime.stdLongYear, l1) ->
  GoTime.nextStdChunk l1 = ("-", GoTime.stdZeroMonth, l2) ->
  GoTime.nextStdChunk l2 = ("-", GoTime.stdZeroDay, l3) ->
  forallb isDigit [y1; y2; y3; y4] = true ->
  GoTime.parseLoop (S (S (S fuel))) l0
    (String y1 (String y2 (String y3 (String y4 (String "-"
       (String m1 (String m2 (String "-" (String d1 (String d2 rest)))))))))) f = None
  \/ exists f',
      GoTime.parseLoop (S (S (S fuel))) l0
        (String y1 (String y2 (String y3 (String y4 (String "-"
           (String m1 (String m2 (String "-" (String d1 (String d2 rest)))))))))) f
      = GoTime.parseLoop fuel l3 rest f'.
Proof.
  intros H0 H1 H2 Hy.
  rewrite (@parseLoop_step _ _ _ _ _ _ _ H0).
  change (GoTime.skip ?v EmptyString) with (Some v). cbv iota.
  rewrite (proj2 (parseStd_year l1 _ f
                    (String "-" (String m1 (String m2 (String "-"
                       (String d1 (String d2 rest))))),
                     GoTime.setYear f (decimal4 y1 y2 y3 y4))))
    by (exists y1, y2, y3, y4; cbn [fst snd]; repeat split; exact Hy).
  rewrite (@parseLoop_step _ _ _ _ _ _ _ H1).
  rewrite (proj2 (skip_hyphen _ _) eq_refl).
  destruct (GoTime.parseStd GoTime.stdZeroMonth l2 _ _) as [[v fm]|] eqn:Hm;
    [|left; reflexivity].
  apply parseStd_month in Hm. destruct Hm as [a [b [Hv _]]].
  injection Hv as _ _ <-.
  rewrite (@parseLoop_step _ _ _ _ _ _ _ H2).
  rewrite (proj2 (skip_hyphen _ _) eq_refl).
  destruct (GoTime.parseStd GoTime.stdZeroDay l3 _ _) as [[v fd]|] eqn:Hd;
    [|left; reflexivity].
  apply parseStd_day in Hd. destruct Hd as [a' [b' [Hv _]]].
  injection Hv as _ _ <-.
  right; exists fd; reflexivity.
Qed.

Lemma getnum_two_digits (a b : ascii) (rest : string) (fixed : bool) :
  isDigit a = true -> isDigit b = true ->
  GoTime.getnum (String a (String b rest)) fixed = Some (decimal2 a b, rest).
Proof.
  intros Ha Hb; unfold GoTime.getnum; rewrite Ha, Hb; reflexivity.
Qed.

Lemma parseStd_hour_two (a b : ascii) (rest layout : string) (f : GoTime.fields) :
  isDigit a = true -> isDigit b = true ->
  GoTime.parseStd GoTime.stdHour layout (String a (String b rest)) f =
  if ((decimal2 a b <? 0) || (24 <=? decimal2 a b))%Z then None
  else Some (rest, GoTime.setHour f (decimal2 a b)).
Proof.
  intros Ha Hb; unfold GoTime.parseStd.
  rewrite (@getnum_two_digits a b rest false Ha Hb); reflexivity.
Qed.

Lemma parseStd_minute_two (a b : ascii) (rest layout : string) (f : GoTime.fields) :
  isDigit a = true -> isDigit b = true ->
  GoTime.parseStd GoTime.stdZeroMinute layout (String a (String b rest)) f =
  if ((decimal2 a b <? 0) || (60 <=? decimal2 a b))%Z then None
  else Some (rest, GoTime.setMin f (decimal2 a b)).
Proof.
  intros Ha Hb; unfold GoTime.parseStd.
  rewrite (@getnum_two_digits a b rest true Ha Hb); reflexivity.
Qed.

(** The time part [THH:MM]: either rejected, or nothing of the value is
    left after the minutes. *)
Lemma parseLoop_time_part (fuel : nat) (l3 l4 l5 : string)
  (h1 h2 n1 n2 : ascii) (f : GoTime.fields) :
  GoTime.nextStdChunk l3 = ("T", GoTime.stdHour, l4) ->
  GoTime.nextStdChunk l4 = (":", GoTime.stdZeroMinute, l5) ->
  forallb isDigit [h1; h2; n1; n2] = true ->
  GoTime.parseLoop (S (S fuel)) l3
    (String "T" (String h1 (String h2 (String ":" (String n1 (String n2 EmptyString)))))) f
  = None
  \/ exists f',
      GoTime.parseLoop (S (S fuel)) l3
        (String "T" (String h1 (String h2 (String ":"
           (String n1 (String n2 EmptyString)))))) f
      = GoTime.parseLoop fuel l5 EmptyString f'.
Proof.
  intros H3 H4 Hd. cbn [forallb] in Hd.
  repeat (apply andb_true_iff in Hd; destruct Hd as [? Hd]).
  rewrite (@parseLoop_step _ _ _ _ _ _ _ H3).
  change (GoTime.skip (String "T" ?v) "T") with (Some v). cbv iota.
  rewrite (@parseStd_hour_two h1 h2 _ l4 f H H0).
  destruct ((decimal2 h1 h2 <? 0)%Z || (24 <=? decimal2 h1 h2)%Z); [left; reflexivity|].
  rewrite (@parseLoop_step _ _ _ _ _ _ _ H4).
  change (GoTime.skip (String ":" ?v) ":") with (Some v). cbv iota.
  rewrite (@parseStd_minute_two n1 n2 _ l5 _ H1 H2).
  destruct ((decimal2 n1 n2 <? 0)%Z || (60 <=? decimal2 n1 n2)%Z); [left; reflexivity|].
  right; eexists; reflexivity.
Qed.

(** With nothing left of the value, a layout that goes on with a literal
    byte rejects it. *)
Lemma parseLoop_value_exhausted (fuel : nat) (layout prefix suffix : string)
  (c : ascii) (st : GoTime.std) (f : GoTime.fields) :
  GoTime.nextStdChunk layout = (String c prefix, st, suffix) ->
  GoTime.byteIs c " " = false ->
  GoTime.parseLoop (S fuel) layout EmptyString f = None.
Proof.
  intros H Hc. rewrite (@parseLoop_step _ _ _ _ _ _ _ H).
  unfold GoTime.skip; cbn [GoTime.skipFrom]; rewrite Hc; reflexivity.
Qed.

(** A value that goes on with [T] is rejected where the layout has a space
    and where it ends. *)
Lemma parseLoop_T_space (fuel : nat) (layout suffix rest : string)
  (st : GoTime.std) (f : GoTime.fields) :
  GoTime.nextStdChunk layout = (" ", st, suffix) ->
  GoTime.parseLoop (S fuel) layout (String "T" rest) f = None.
Proof.
  intros H. rewrite (@parseLoop_step _ _ _ _ _ _ _ H). reflexivity.
Qed.

Lemma parseLoop_T_end (fuel : nat) (layout suffix rest : string) (f : GoTime.fields) :
  GoTime.nextStdChunk layout = (EmptyString, GoTime.stdNone, suffix) ->
  GoTime.parseLoop (S fuel) layout (String "T" rest) f = None.
Proof.
  intros H. rewrite (@parseLoop_step _ _ _ _ _ _ _ H). reflexivity.
Qed.

Lemma Parse_None_of_loop (layout value : string) :
  GoTime.parseLoop (S (String.length layout)) layout value GoTime.initFields = None ->
  GoTime.Parse layout value = None.
Proof.
  intros H; unfold GoTime.Parse; rewrite H; reflexivity.
Qed.

(** No layout of the list accepts a zone-less minute value. *)
Lemma zonelessMinute_rejected (s layout : string) :
  zonelessMinute s -> In layout layouts -> GoTime.Parse layout s = None.
Proof.
  intros [y1 [y2 [y3 [y4 [m1 [m2 [d1 [d2 [h1 [h2 [n1 [n2 [-> Hd]]]]]]]]]]]]] Hin.
  assert (Hy : forallb isDigit [y1; y2; y3; y4] = true).
  { cbn [forallb] in Hd |- *.
    repeat (apply andb_true_iff in Hd; destruct Hd as [? Hd]).
    repeat match goal with
           | Hx : isDigit _ = true |- _ => rewrite Hx; clear Hx
           end; reflexivity. }
  assert (Ht : forallb isDigit [h1; h2; n1; n2] = true).
  { cbn [forallb] in Hd |- *.
    repeat (apply andb_true_iff in Hd; destruct Hd as [? Hd]).
    repeat match goal with
           | Hx : isDigit _ = true |- _ => rewrite Hx; clear Hx
           end; reflexivity. }
  apply Parse_None_of_loop.
  simpl in Hin.
  destruct Hin as [<- | [<- | [<- | [<- | [<- | [<- | [<- | [<- | [<- | []]]]]]]]]];
    cbn [String.length defaultFormat DateTimeZeroFormat MilisecondsFormat];
    match goal with
    | |- GoTime.parseLoop _ ?lay _ _ = None =>
        edestruct (parseLoop_date_part) with (l0 := lay) (f := GoTime.initFields)
          as [Hnone | [fd Hgo]];
        [vm_compute; reflexivity | vm_compute; reflexivity | vm_compute; reflexivity
        | exact Hy | exact Hnone | rewrite Hgo]
    end;
    try (first [ eapply parseLoop_T_space; vm_compute; reflexivity
               | eapply parseLoop_T_end; vm_compute; reflexivity ]).
  all: try (match goal with
            | |- GoTime.parseLoop _ ?lay _ _ = None =>
                edestruct (parseLoop_time_part) with (l3 := lay) (f := fd)
                  as [Hnone | [ft Hgo2]];
                [vm_compute; reflexivity | vm_compute; reflexivity | exact Ht
                | exact Hnone | rewrite Hgo2]
            end;
            eapply parseLoop_value_exhausted; [vm_compute; reflexivity | reflexivity]).
Qed.

(** C4, amended.  [parseToUTCTime] tries the layouts in this order, the
    first success wins and the result is in UTC: the RFC3339 layout with a
    zone offset, then [YYYY-MM-DDTHH:MMZ] whose value must end with the
    literal [Z], then [YYYY-MM-DDTHH:MM:SSZ], its millisecond variant,
    [YYYY-MM-DDTHH:MM:SS], the three space-separated variants and the bare
    date; a value parsed under a layout other than the first is a UTC
    time; a zone-less [YYYY-MM-DDTHH:MM] value is accepted by no layout. *)
Theorem layouts_order (time_Parse : string -> string -> option Time) (s : string) :
  layouts =
    [ "2006-01-02T15:04:05Z07:00"; "2006-01-02T15:04Z"; "2006-01-02T15:04:05Z";
      "2006-01-02T15:04:05.000Z"; "2006-01-02T15:04:05"; "2006-01-02 15:04";
      "2006-01-02 15:04:05"; "2006-01-02 15:04:05.000"; "2006-01-02" ]
  /\ (forall u,
        parseToUTCTime time_Parse s = Ok u <->
        exists i layout p,
          nth_error layouts i = Some layout
          /\ time_Parse layout s = Some p
          /\ (forall j l, (j < i)%nat -> nth_error layouts j = Some l -> time_Parse l s = None)
          /\ u = mkUTCTime (Time_UTC p))
  /\ (forall u, parseToUTCTime time_Parse s = Ok u -> loc (utc_Time u) = UTC)
  /\ (forall t, GoTime.Parse "2006-01-02T15:04Z" s = Some t -> exists p, s = (p ++ "Z")%string)
  /\ GoTime.Parse "2006-01-02T15:04Z" "2022-01-01T10:00Z" = Some (mkTime 1641031200 0 UTC)
  /\ (forall layout t,
        In layout (tl layouts) -> GoTime.Parse layout s = Some t -> loc t = UTC)
  /\ (zonelessMinute s ->
      (forall layout, In layout layouts -> GoTime.Parse layout s = None)
      /\ parseToUTCTime GoTime.Parse s = Err ("invalid date format: " ++ s)).
Proof.
  split; [reflexivity|].
  split; [intros u; apply parseWith_first_success|].
  split; [intros u; apply parseToUTCTime_loc|].
  split; [|split; [vm_compute; reflexivity|split]].
  - intros t H.
    apply Parse_trailing_Z with (layout := "2006-01-02T15:04Z") (t := t); [|exact H].
    vm_compute; reflexivity.
  - intros layout t Hin. apply Parse_noZone_UTC.
    simpl in Hin.
    repeat (destruct Hin as [<- | Hin]; [vm_compute; exact I|]).
    destruct Hin.
  - intros Hz.
    assert (Hall : forall layout, In layout layouts -> GoTime.Parse layout s = None)
      by (intros layout Hin; apply (zonelessMinute_rejected Hz Hin)).
    split; [exact Hall|].
    apply (proj1 (parseWith_all_fail GoTime.Parse layouts s)), Hall.
Qed.

Example zonelessMinute_example : zonelessMinute "2022-01-01T10:00".
Proof.
  exists "2"%char, "0"%char, "2"%char, "2"%char, "0"%char, "1"%char, "0"%char, "1"%char,
    "1"%char, "0"%char, "0"%char, "0"%char.
  split; reflexivity.
Qed.

Lemma NewValidator_registration_order_witness :
  exists registry,
    lookupRule registry "customValidationEnum" = Some validCustomEnum
    /\ lookupRule registry decimal2placesTag = Some (pureRule validDecimalValue).
Proof.
  assert (Hnd : NoDup (map fst customTags)) by (repeat constructor; intros []).
  destruct (@NewValidator_registration_order GoTime.Parse (fun _ => false) (fun _ => false)
              customTags [] _ eq_refl Hnd)
    as [registry [_ [_ [_ [Hdec [_ [_ [_ Hcustom]]]]]]]].
  exists registry; split; [apply Hcustom; left; reflexivity | exact Hdec].
Defined.

Lemma validateDatetimeGTE_needs_record_witness :
  exists msg,
    validateDatetimeGTE GoTime.Parse
      (mkFieldLevel (Some (VString "2022-01-01")) "Field1" (Some (VPtr requiredModelType None)))
    = Panic msg.
Proof.
  apply (proj1 (validateDatetimeGTE_needs_record GoTime.Parse
                  (mkFieldLevel (Some (VString "2022-01-01")) "Field1"
                     (Some (VPtr requiredModelType None)))));
    simpl; intros; discriminate.
Defined.
